(** * supaR2: the migration engine, embedded and verified

    A shallow embedding of the migration core of the supaR2 application
    (Supabase Storage to Cloudflare R2): the path normaliser and the skip
    filter of [MigrationService], its recursive source enumeration, the
    destination existence check, the batch scheduler with its progress
    record, the transfer endpoint [/api/migrate-to-r2] with its content-type
    table, and the table-mode row loop with its URL key extraction.

    Conventions of the embedding.
    - A JavaScript string is a [string]: a sequence of code units, here
      restricted to the code units below 256.  Every primitive used by the
      program ([replace] of slash runs, [startsWith], [includes], [split],
      [join], [toLowerCase], [trim]) works code unit by code unit.
    - A rejected promise or a thrown exception is a value of type [thrown];
      a function that may throw returns a [completion].
    - The outside world (the two object stores, the HTTP endpoint, the
      database, the platform URL parser) is passed in explicitly, as the
      answers it gives.
    - A JavaScript object used as a dictionary is a [gmap string _]; where the
      program reads a dictionary through the prototype chain, the inherited
      properties of [Object.prototype] are written out. *)

From Stdlib Require Import Ascii String List Bool Arith Lia.
From stdpp Require Import gmap strings list relations.

Open Scope string_scope.

(** ** JavaScript primitives *)

Module Js.

(** What a [catch] clause can receive: an [Error] object (so that
    [e instanceof Error] holds) with its [name] and [message], or any other
    value. *)
Inductive thrown : Type :=
| ErrorObject (name message : string)
| OtherValue.

Definition Error (message : string) : thrown := ErrorObject "Error" message.

Definition instanceofError (e : thrown) : bool :=
  match e with ErrorObject _ _ => true | OtherValue => false end.

(** Normal return or exception. *)
Inductive completion (A : Type) : Type :=
| Return (a : A)
| Throw (e : thrown).
Arguments Return {A} a.
Arguments Throw {A} e.

Definition is_slash (c : ascii) : bool := Ascii.eqb c "/".

Definition quote : string := String "034" "".

(** [s.startsWith(p)] *)
Fixpoint startsWith (s p : string) {struct p} : bool :=
  match p with
  | "" => true
  | String b p' =>
      match s with
      | "" => false
      | String a s' => Ascii.eqb a b && startsWith s' p'
      end
  end.

(** [s.includes(p)]: [p] starts at some position of [s]. *)
Fixpoint includes (s p : string) : bool :=
  startsWith s p ||
  match s with
  | "" => false
  | String _ rest => includes rest p
  end.

(** [s.substring(1)] *)
Definition substring1 (s : string) : string :=
  match s with
  | "" => ""
  | String _ rest => rest
  end.

(** [s.replace(/\/+/g, '/')]: scanning from the left, every maximal run of
    slashes is replaced by one slash.  A slash that is followed by another
    slash belongs to the same run and produces nothing. *)
Fixpoint replace_slash_runs (s : string) : string :=
  match s with
  | "" => ""
  | String c rest =>
      if is_slash c then
        match rest with
        | String c' _ =>
            if is_slash c' then replace_slash_runs rest
            else String "/" (replace_slash_runs rest)
        | "" => "/"
        end
      else String c (replace_slash_runs rest)
  end.

(** [s.split(sep)] for a separator of one code unit: the pieces between the
    separators, never an empty array. *)
Fixpoint split (sep : ascii) (s : string) : list string :=
  match s with
  | "" => [""]
  | String c rest =>
      if Ascii.eqb c sep then "" :: split sep rest
      else match split sep rest with
           | piece :: pieces => String c piece :: pieces
           | [] => [String c ""]
           end
  end.

(** [parts.join(sep)] *)
Fixpoint join (sep : string) (parts : list string) : string :=
  match parts with
  | [] => ""
  | [p] => p
  | p :: rest => p +:+ sep +:+ join sep rest
  end.

(** [parts.findIndex(part => part === x)], with [None] for [-1]. *)
Fixpoint findIndex (x : string) (parts : list string) : option nat :=
  match parts with
  | [] => None
  | p :: rest =>
      if String.eqb p x then Some 0
      else option_map S (findIndex x rest)
  end.

(** [c.toLowerCase()] on one code unit below 256: the letters A-Z and the
    accented capitals U+00C0-U+00DE (without the multiplication sign
    U+00D7) move up by 32. *)
Definition lower_unit (c : ascii) : ascii :=
  let n := nat_of_ascii c in
  if ((65 <=? n)%nat && (n <=? 90)%nat) ||
     ((192 <=? n)%nat && (n <=? 222)%nat && negb (n =? 215)%nat)
  then ascii_of_nat (n + 32)
  else c.

Fixpoint toLowerCase (s : string) : string :=
  match s with
  | "" => ""
  | String c rest => String (lower_unit c) (toLowerCase rest)
  end.

(** White space of [String.prototype.trim] among the code units below
    256: TAB, LF, VT, FF, CR, SPACE and NBSP. *)
Definition is_white (c : ascii) : bool :=
  let n := nat_of_ascii c in
  ((9 <=? n)%nat && (n <=? 13)%nat) || (n =? 32)%nat || (n =? 160)%nat.

(** [!s.trim()]: the string is empty once trimmed, that is, it consists of
    white space only. *)
Fixpoint blank (s : string) : bool :=
  match s with
  | "" => true
  | String c rest => is_white c && blank rest
  end.

(** [o[key] = v] on an object created by a literal: the assignment creates
    or overwrites the own property [key], except for the key [__proto__],
    whose inherited setter ignores a string. *)
Definition assign (key v : string) (o : gmap string string) : gmap string string :=
  if String.eqb key "__proto__" then o else <[key := v]> o.

(** A run of [n] slashes. *)
Fixpoint slashes (n : nat) : string :=
  match n with
  | 0 => ""
  | S k => String "/" (slashes k)
  end.

End Js.

(** ** Path normaliser and skip filter ([MigrationService]) *)

Module Paths.
Import Js.

(** [normalizePath]: the same three lines in [migration-service.ts], in the
    route handler and in the server action. *)
Definition normalizePath (path : string) : string :=
  let normalized := replace_slash_runs path in
  if startsWith normalized "/" then substring1 normalized else normalized.

Definition skipPatterns : list string :=
  [ ".emptyFolderPlaceholder"; "test-"; "mock-"; "example"; "/example";
    "/examples/"; "sample-"; "/sample/"; "/test/"; "/testing/" ].

(** [shouldSkipPath]: [skipPatterns.some(pattern => path.includes(pattern))] *)
Definition shouldSkipPath (path : string) : bool :=
  existsb (fun pattern => includes path pattern) skipPatterns.

End Paths.

(** ** Content types ([getContentType]) *)

Module ContentType.
Import Js.

(** What reading a property of the [contentTypes] object can give: one of
    its own strings, or what the object inherits from [Object.prototype]. *)
Inductive value : Type :=
| VString (s : string)
| VObjectConstructor
| VObjectPrototype
| VFunction (name : string)
| VUndefined.

(** The methods of [Object.prototype], next to [constructor] and the
    accessor [__proto__]. *)
Definition object_prototype_methods : list string :=
  [ "__defineGetter__"; "__defineSetter__"; "hasOwnProperty";
    "__lookupGetter__"; "__lookupSetter__"; "isPrototypeOf";
    "propertyIsEnumerable"; "toString"; "valueOf"; "toLocaleString" ].

Definition inherited (key : string) : value :=
  if String.eqb key "constructor" then VObjectConstructor
  else if String.eqb key "__proto__" then VObjectPrototype
  else if existsb (String.eqb key) object_prototype_methods then VFunction key
  else VUndefined.

Fixpoint own (table : list (string * string)) (key : string) : option string :=
  match table with
  | [] => None
  | (k, v) :: rest => if String.eqb k key then Some v else own rest key
  end.

(** [contentTypes[key]] *)
Definition get (table : list (string * string)) (key : string) : value :=
  match own table key with
  | Some v => VString v
  | None => inherited key
  end.

Definition truthy (v : value) : bool :=
  match v with
  | VString s => negb (String.eqb s "")
  | VUndefined => false
  | _ => true
  end.

(** The body shared by the three copies of [getContentType]:
    [path.split('.').pop()?.toLowerCase()], then
    [extension && contentTypes[extension] ? contentTypes[extension] : ...]. *)
Definition lookupContentType (contentTypes : list (string * string))
    (path : string) : value :=
  let extension := toLowerCase <$> last (split "." path) in
  match extension with
  | Some extension =>
      if negb (String.eqb extension "") && truthy (get contentTypes extension)
      then get contentTypes extension
      else VString "application/octet-stream"
  | None => VString "application/octet-stream"
  end.

(** The table of the route handler and of the server action. *)
Definition contentTypes : list (string * string) :=
  [ ("jpg", "image/jpeg");
    ("jpeg", "image/jpeg");
    ("png", "image/png");
    ("gif", "image/gif");
    ("webp", "image/webp");
    ("svg", "image/svg+xml");
    ("pdf", "application/pdf");
    ("doc", "application/msword");
    ("docx", "application/vnd.openxmlformats-officedocument.wordprocessingml.document");
    ("xls", "application/vnd.ms-excel");
    ("xlsx", "application/vnd.openxmlformats-officedocument.spreadsheetml.sheet");
    ("mp3", "audio/mpeg");
    ("mp4", "video/mp4");
    ("webm", "video/webm");
    ("json", "application/json");
    ("html", "text/html");
    ("css", "text/css");
    ("js", "application/javascript");
    ("txt", "text/plain") ].

(** The table of [MigrationService.getContentType], which also knows the
    two PowerPoint extensions. *)
Definition serviceContentTypes : list (string * string) :=
  [ ("jpg", "image/jpeg");
    ("jpeg", "image/jpeg");
    ("png", "image/png");
    ("gif", "image/gif");
    ("webp", "image/webp");
    ("svg", "image/svg+xml");
    ("pdf", "application/pdf");
    ("doc", "application/msword");
    ("docx", "application/vnd.openxmlformats-officedocument.wordprocessingml.document");
    ("xls", "application/vnd.ms-excel");
    ("xlsx", "application/vnd.openxmlformats-officedocument.spreadsheetml.sheet");
    ("ppt", "application/vnd.ms-powerpoint");
    ("pptx", "application/vnd.openxmlformats-officedocument.presentationml.presentation");
    ("mp3", "audio/mpeg");
    ("mp4", "video/mp4");
    ("webm", "video/webm");
    ("json", "application/json");
    ("html", "text/html");
    ("css", "text/css");
    ("js", "application/javascript");
    ("txt", "text/plain") ].

(** [getContentType] of the route handler and of the server action. *)
Definition getContentType (path : string) : value :=
  lookupContentType contentTypes path.

(** [MigrationService.getContentType] *)
Definition serviceGetContentType (path : string) : value :=
  lookupContentType serviceContentTypes path.

End ContentType.

(** ** Source enumeration ([MigrationService.listFiles]) *)

Module Enumerator.
Import Js Paths.

Record Metadata : Type := {
  md_size : nat;
  md_lastModified : option string
}.

(** An entry of a listing; a folder has no [id]. *)
Record FileObject : Type := {
  name : string;
  id : option string;
  metadata : option Metadata
}.

(** The answer [{ data, error }] of [storage.from(bucket).list(path)]. *)
Inductive list_answer : Type :=
| ListError (error_name message : string)
| ListNoData
| ListData (data : list FileObject).

Record MigrationFile : Type := {
  path : string;
  size : nat;
  lastModified : option string;
  selected : option bool
}.

(** [!item.id] *)
Definition no_id (item : FileObject) : bool :=
  match id item with
  | None => true
  | Some i => String.eqb i ""
  end.

(** The listing calls made, in order, and how the call ended; [None] when the
    recursion is deeper than the fuel. *)
Definition listing : Type :=
  list string * option (completion (list MigrationFile)).

(** What every record of an inventory is expected to satisfy. *)
Definition kept (f : MigrationFile) : Prop :=
  shouldSkipPath (path f) = false /\ selected f = Some true.

Section ListFiles.

Variable bucketName : string.
Variable list_ : string -> list_answer.

(** [normalizedPath ? `${normalizedPath}/${item.name}` : item.name] *)
Definition joinPath (normalizedPath itemName : string) : string :=
  if String.eqb normalizedPath "" then itemName
  else normalizedPath +:+ "/" +:+ itemName.

(** The [for (const item of data)] loop; [listFiles] is the recursive call. *)
Fixpoint listItems (listFiles : string -> listing) (normalizedPath : string)
    (data : list FileObject) (files : list MigrationFile)
    (calls : list string) : listing :=
  match data with
  | [] => (calls, Some (Return files))
  | item :: rest =>
      let itemPath := joinPath normalizedPath (name item) in
      if shouldSkipPath itemPath then
        listItems listFiles normalizedPath rest files calls
      else if no_id item then
        let subPath := joinPath normalizedPath (name item) in
        match listFiles subPath with
        | (subCalls, Some (Return subFiles)) =>
            listItems listFiles normalizedPath rest
                      (files ++ subFiles)%list (calls ++ subCalls)%list
        | (subCalls, stopped) => ((calls ++ subCalls)%list, stopped)
        end
      else
        let fullPath := joinPath normalizedPath (name item) in
        listItems listFiles normalizedPath rest
                  (files ++ [ {| path := fullPath;
                                 size := from_option md_size 0 (metadata item);
                                 lastModified := metadata item ≫= md_lastModified;
                                 selected := Some true |} ])%list
                  calls
  end.

Fixpoint listFiles (fuel : nat) (path : string) : listing :=
  match fuel with
  | 0 => ([], None)
  | S fuel' =>
      if String.eqb bucketName "" then
        ([], Some (Throw (Error "Bucket name is required")))
      else
        let normalizedPath := normalizePath path in
        if shouldSkipPath normalizedPath then ([], Some (Return []))
        else
          match list_ normalizedPath with
          | ListError error_name message =>
              if includes message "not found" || includes message "does not exist"
              then ([normalizedPath],
                    Some (Throw (Error ("Bucket " +:+ quote +:+ bucketName +:+ quote
                                        +:+ " does not exist or is not accessible"))))
              else ([normalizedPath], Some (Throw (ErrorObject error_name message)))
          | ListNoData =>
              ([normalizedPath],
               Some (Throw (Error ("No data returned from bucket " +:+ quote
                                   +:+ bucketName +:+ quote))))
          | ListData data =>
              listItems (listFiles fuel') normalizedPath data [] [normalizedPath]
          end
  end.

End ListFiles.

End Enumerator.

(** ** Sample worlds, used where a statement is tried on concrete input *)

Module Samples.
Import Js Enumerator.

(** A bucket with one file at the top, a folder [images] with one picture, a
    folder of fixtures, and a folder [test] with one file in [test/x]. *)
Definition sample_list (normalizedPath : string) : list_answer :=
  if String.eqb normalizedPath "" then
    ListData
      [ {| name := "readme.txt"; id := Some "f1";
           metadata := Some {| md_size := 12; md_lastModified := None |} |};
        {| name := "images"; id := None; metadata := None |};
        {| name := "test-data"; id := None; metadata := None |} ]
  else if String.eqb normalizedPath "images" then
    ListData
      [ {| name := "a.png"; id := Some "f2";
           metadata := Some {| md_size := 20;
                               md_lastModified := Some "2024-01-01" |} |};
        {| name := ".emptyFolderPlaceholder"; id := Some "f3"; metadata := None |} ]
  else if String.eqb normalizedPath "test/x" then
    ListData [ {| name := "b.png"; id := Some "f4"; metadata := None |} ]
  else ListData [].

End Samples.

(** ** Asynchronous methods of [MigrationService] *)

Module Service.
Import Js Paths.

Record MigrationProgress : Type := {
  total : nat;
  completed : nat;
  failed : nat;
  inProgress : bool;
  errors : gmap string string
}.

(** How [r2Client.send(new HeadObjectCommand(..))] settles. *)
Inductive head_answer : Type :=
| HeadResolves
| HeadRejects (e : thrown).

(** How the request [fetch('/api/migrate-to-r2', ..)] and the reading of its
    response settle: the request is rejected (network failure, or an
    [AbortError] when the 30 second timer fires); the response is not [ok],
    with its status text and the outcome of [response.text()]; the response
    is [ok] but [response.json()] is rejected (or the body is not an
    object); the response is [ok] with the fields [success] and [error] of
    its body ([error] empty when absent). *)
Inductive fetch_answer : Type :=
| FetchRejects (e : thrown)
| ResponseNotOk (statusText : string) (text : completion string)
| ResponseOkNoJson (e : thrown)
| ResponseOkJson (success : bool) (error : string).

(** Requests sent to the outside. *)
Inductive call : Type :=
| HeadObject (key : string)
| PostMigrate (filePath : string).

(** An asynchronous computation: it returns, or mutates [this.progress] and
    goes on, or is suspended at an [await] until the answer arrives. *)
Inductive async (A : Type) : Type :=
| Ret (a : A)
| IncCompleted (k : async A)
| IncFailed (k : async A)
| SetError (key message : string) (k : async A)
| AwaitHead (key : string) (k : head_answer -> async A)
| AwaitPost (filePath : string) (k : fetch_answer -> async A).
Arguments Ret {A} a.
Arguments IncCompleted {A} k.
Arguments IncFailed {A} k.
Arguments SetError {A} key message k.
Arguments AwaitHead {A} key k.
Arguments AwaitPost {A} filePath k.

Fixpoint bind {A B : Type} (m : async A) (f : A -> async B) : async B :=
  match m with
  | Ret a => f a
  | IncCompleted k => IncCompleted (bind k f)
  | IncFailed k => IncFailed (bind k f)
  | SetError key message k => SetError key message (bind k f)
  | AwaitHead key k => AwaitHead key (fun a => bind (k a) f)
  | AwaitPost filePath k => AwaitPost filePath (fun a => bind (k a) f)
  end.

#[export] Instance async_ret : MRet async := @Ret.
#[export] Instance async_bind : MBind async := fun A B f m => bind m f.

Definition send_head (key : string) : async head_answer := AwaitHead key Ret.
Definition fetch_migrate (filePath : string) : async fetch_answer :=
  AwaitPost filePath Ret.

Definition not_initialized : string :=
  "Cloudflare R2 client is not initialized. Please connect to Cloudflare R2 first.".

(** [error instanceof Error ? error.message : fallback] *)
Definition message_or (fallback : string) (error : thrown) : string :=
  match error with
  | ErrorObject _ message => message
  | OtherValue => fallback
  end.

(** [fileExistsInR2]: the [try] block, then the [catch] clause, which
    re-throws only an [Error] whose message contains [not initialized]. *)
Definition fileExistsInR2 (r2Client : bool) (path : string)
    : async (completion bool) :=
  tried ←
    (if negb r2Client then Ret (Throw (Error not_initialized))
     else
       let normalizedPath := normalizePath path in
       answer ← send_head normalizedPath;
       match answer with
       | HeadResolves => Ret (Return true)
       | HeadRejects e => Ret (Throw e)
       end);
  match tried with
  | Return b => Ret (Return b)
  | Throw error =>
      if instanceofError error && includes (message_or "" error) "not initialized"
      then Ret (Throw error)
      else Ret (Return false)
  end.

(** [uploadToR2].  In the branch of a response that is not [ok], the error
    built from the parsed body is thrown inside the inner [try] whose bare
    [catch] replaces whatever was thrown there, so the parsed body never
    shows; the serialisation of the three strings of the payload cannot
    fail. *)
Definition uploadToR2 (r2Client : bool) (path : string)
    : async (completion unit) :=
  if negb r2Client then Ret (Throw (Error not_initialized))
  else
    let normalizedPath := normalizePath path in
    tried ←
      (answer ← fetch_migrate normalizedPath;
       match answer with
       | FetchRejects e => Ret (Throw e)
       | ResponseNotOk statusText (Throw e) => Ret (Throw e)
       | ResponseNotOk statusText (Return errorText) =>
           Ret (Throw (Error ("Failed to upload file to R2: " +:+
                              (if String.eqb errorText "" then statusText
                               else errorText))))
       | ResponseOkNoJson e => Ret (Throw e)
       | ResponseOkJson success error =>
           if success then Ret (Return tt)
           else Ret (Throw (Error (if String.eqb error ""
                                   then "Failed to upload file to R2"
                                   else error)))
       end);
    match tried with
    | Return _ => Ret (Return tt)
    | Throw fetchError =>
        match fetchError with
        | ErrorObject name _ =>
            if String.eqb name "AbortError"
            then Ret (Throw (Error ("Request timed out after 30 seconds for file: "
                                    +:+ normalizedPath)))
            else Ret (Throw fetchError)
        | OtherValue => Ret (Throw fetchError)
        end
    end.

(** [migrateFile]: the [try] block, then the [catch] clause. *)
Definition migrateFile (r2Client : bool) (path : string)
    : async (completion unit) :=
  tried ←
    (if shouldSkipPath path then IncCompleted (Ret (Return tt))
     else
       let normalizedPath := normalizePath path in
       exists_ ← fileExistsInR2 r2Client normalizedPath;
       match exists_ with
       | Throw e => Ret (Throw e)
       | Return true => IncCompleted (Ret (Return tt))
       | Return false =>
           uploaded ← uploadToR2 r2Client normalizedPath;
           match uploaded with
           | Throw e => Ret (Throw e)
           | Return _ => IncCompleted (Ret (Return tt))
           end
       end);
  match tried with
  | Return _ => Ret (Return tt)
  | Throw error =>
      IncFailed (SetError path (message_or "Unknown error" error)
                          (Ret (Return tt)))
  end.

(** How the destination says that there is no object under the key: the
    client rejects a HEAD request answered with status 404 by an error named
    [NotFound]. *)
Definition reports_not_found (a : head_answer) : bool :=
  match a with
  | HeadRejects (ErrorObject name _) => String.eqb name "NotFound"
  | _ => false
  end.

(** *** The mutations of [this.progress] *)

Definition incCompleted (p : MigrationProgress) : MigrationProgress :=
  {| total := total p; completed := S (completed p); failed := failed p;
     inProgress := inProgress p; errors := errors p |}.

Definition incFailed (p : MigrationProgress) : MigrationProgress :=
  {| total := total p; completed := completed p; failed := S (failed p);
     inProgress := inProgress p; errors := errors p |}.

Definition setError (key message : string) (p : MigrationProgress)
    : MigrationProgress :=
  {| total := total p; completed := completed p; failed := failed p;
     inProgress := inProgress p; errors := assign key message (errors p) |}.

Definition setInProgress (b : bool) (p : MigrationProgress) : MigrationProgress :=
  {| total := total p; completed := completed p; failed := failed p;
     inProgress := b; errors := errors p |}.

(** *** One method call on its own, in a world that answers at once *)

Record world : Type := {
  headObject : string -> head_answer;
  postMigrate : string -> fetch_answer
}.

Fixpoint exec {A : Type} (w : world) (m : async A) (p : MigrationProgress)
    : A * MigrationProgress * list call :=
  match m with
  | Ret a => (a, p, [])
  | IncCompleted k => exec w k (incCompleted p)
  | IncFailed k => exec w k (incFailed p)
  | SetError key message k => exec w k (setError key message p)
  | AwaitHead key k =>
      let '(a, p', cs) := exec w (k (headObject w key)) p in
      (a, p', HeadObject key :: cs)
  | AwaitPost filePath k =>
      let '(a, p', cs) := exec w (k (postMigrate w filePath)) p in
      (a, p', PostMigrate filePath :: cs)
  end.

(** *** [migrateFiles]: the batches and their interleavings *)

(** Run a task up to its next [await] (or to its end). *)
Fixpoint advance {A : Type} (m : async A) (p : MigrationProgress)
    : MigrationProgress * async A :=
  match m with
  | IncCompleted k => advance k (incCompleted p)
  | IncFailed k => advance k (incFailed p)
  | SetError key message k => advance k (setError key message p)
  | _ => (p, m)
  end.

(** The request a suspended task has just sent. *)
Definition issued {A : Type} (m : async A) : list call :=
  match m with
  | AwaitHead key _ => [HeadObject key]
  | AwaitPost filePath _ => [PostMigrate filePath]
  | _ => []
  end.

Abbreviation task := (async (completion unit)).

Definition fulfilled (t : task) : bool :=
  match t with Ret (Return _) => true | _ => false end.

Definition rejected (t : task) : bool :=
  match t with Ret (Throw _) => true | _ => false end.

(** The state of one run: the progress record, the promises handed to
    [Promise.all] for the current batch, the files from index [i] on (the
    next [files.slice(i, i + batchSize)] is their first [batchSize]), and
    the requests sent so far. *)
Record state : Type := {
  progress : MigrationProgress;
  window : list task;
  pending : list Enumerator.MigrationFile;
  calls : list call
}.

Definition batchSize : nat := 5.

(** [batch.map(file => this.migrateFile(file.path))]: every call runs at
    once up to its first [await], in the order of the batch. *)
Fixpoint startBatch (r2Client : bool) (batch : list Enumerator.MigrationFile)
    (p : MigrationProgress) : MigrationProgress * list task * list call :=
  match batch with
  | [] => (p, [], [])
  | file :: rest =>
      let '(p1, t) := advance (migrateFile r2Client (Enumerator.path file)) p in
      let '(p2, ts, cs) := startBatch r2Client rest p1 in
      (p2, t :: ts, (issued t ++ cs)%list)
  end.

(** The prologue of [migrateFiles]: the two guards and the reset of the
    progress record. *)
Definition migrateFiles (r2Client : bool) (current : MigrationProgress)
    (files : list Enumerator.MigrationFile) : completion state :=
  if inProgress current then Throw (Error "Migration already in progress")
  else if negb r2Client then Throw (Error not_initialized)
  else Return {| progress := {| total := length files; completed := 0;
                                failed := 0; inProgress := true;
                                errors := ∅ |};
                 window := []; pending := files; calls := [] |}.

(** What can happen next: the answer to the request of the [i]-th promise
    of the batch arrives, or the [await Promise.all(..)] of the loop is
    resumed (also the first test of the loop condition). *)
Inductive event : Type :=
| HeadAnswer (i : nat) (a : head_answer)
| FetchAnswer (i : nat) (a : fetch_answer)
| Join.

(** The [finally] clause. *)
Definition finish (s : state) : state :=
  {| progress := setInProgress false (progress s); window := window s;
     pending := []; calls := calls s |}.

Definition resumed (s : state) (i : nat) (t : task) : state :=
  let '(p, t') := advance t (progress s) in
  {| progress := p; window := <[i := t']> (window s); pending := pending s;
     calls := (calls s ++ issued t')%list |}.

Definition step (r2Client : bool) (ev : event) (s : state) : option state :=
  match ev with
  | HeadAnswer i a =>
      match window s !! i with
      | Some (AwaitHead _ k) => Some (resumed s i (k a))
      | _ => None
      end
  | FetchAnswer i a =>
      match window s !! i with
      | Some (AwaitPost _ k) => Some (resumed s i (k a))
      | _ => None
      end
  | Join =>
      if negb (inProgress (progress s)) then None
      else if existsb rejected (window s) then Some (finish s)
      else if forallb fulfilled (window s) then
        match pending s with
        | [] => Some (finish s)
        | _ =>
            let '(p, ts, cs) :=
              startBatch r2Client (take batchSize (pending s)) (progress s) in
            Some {| progress := p; window := ts;
                    pending := drop batchSize (pending s);
                    calls := (calls s ++ cs)%list |}
        end
      else None
  end.

Fixpoint run (r2Client : bool) (evs : list event) (s : state) : option state :=
  match evs with
  | [] => Some s
  | ev :: rest =>
      match step r2Client ev s with
      | Some s' => run r2Client rest s'
      | None => None
      end
  end.

(** *** Shapes of the tasks of a batch *)

(** No more mutation of the counters, normal return. *)
Inductive quiet : task -> Prop :=
| quiet_ret : quiet (Ret (Return tt))
| quiet_error key message k : quiet k -> quiet (SetError key message k).

(** Exactly one of the two counters goes up, without any further [await],
    and the task returns normally. *)
Inductive last_leg : task -> Prop :=
| last_completed k : quiet k -> last_leg (IncCompleted k)
| last_failed k : quiet k -> last_leg (IncFailed k)
| last_error key message k : last_leg k -> last_leg (SetError key message k).

(** A task that is resumed after the existence check is on its last leg or
    sends the transfer request and is on its last leg after that. *)
Definition resumable (t : task) : Prop :=
  last_leg t \/
  match t with
  | AwaitPost _ k => forall a, last_leg (k a)
  | _ => False
  end.

(** A task that is started is on its last leg or sends the existence
    check. *)
Definition startable (t : task) : Prop :=
  last_leg t \/
  match t with
  | AwaitHead _ k => forall a, resumable (k a)
  | _ => False
  end.

(** What a promise in the window looks like: fulfilled, or waiting for the
    transfer, or waiting for the existence check. *)
Definition sound (t : task) : Prop :=
  match t with
  | Ret r => r = Return tt
  | AwaitPost _ k => forall a, last_leg (k a)
  | AwaitHead _ k => forall a, resumable (k a)
  | _ => False
  end.


(** Requests a promise may still have to wait for. *)
Definition rank (t : task) : nat :=
  match t with
  | AwaitHead _ _ => 2
  | AwaitPost _ _ => 1
  | _ => 0
  end.

Definition owing (t : task) : nat := if fulfilled t then 0 else 1.

(** Promises of the window that are not fulfilled yet. *)
Fixpoint unsettled (ts : list task) : nat :=
  match ts with
  | [] => 0
  | t :: rest => owing t + unsettled rest
  end.

Fixpoint ranks (ts : list task) : nat :=
  match ts with
  | [] => 0
  | t :: rest => rank t + ranks rest
  end.

(** A bound on the number of events a run can still take. *)
Definition measure (s : state) : nat :=
  ranks (window s) + 3 * length (pending s)
  + (if inProgress (progress s) then 1 else 0).

(** The accounting of a run over [n] files. *)
Definition accounted (n : nat) (s : state) : Prop :=
  total (progress s) = n /\
  Forall sound (window s) /\
  completed (progress s) + failed (progress s)
    + unsettled (window s) + length (pending s) = n /\
  (inProgress (progress s) = false ->
   unsettled (window s) = 0 /\ pending s = []).

(** The counters after a step of one task: what it owed before is what it
    has counted plus what it still owes. *)
Definition settles_one (p p' : MigrationProgress) (t' : task) : Prop :=
  sound t' /\ rank t' <= 1 /\
  total p' = total p /\ inProgress p' = inProgress p /\
  completed p' + failed p' + owing t' = S (completed p + failed p).

(** Exactly one of the two counters is one higher, the rest of the counters
    is as before. *)
Definition one_counter_up (p p' : MigrationProgress) : Prop :=
  total p' = total p /\ inProgress p' = inProgress p /\
  (completed p' = S (completed p) /\ failed p' = failed p \/
   completed p' = completed p /\ failed p' = S (failed p)).

End Service.

(** Worlds for the service, and a fresh progress record. *)

Module ServiceSamples.
Import Js Service.

Definition idle : MigrationProgress :=
  {| total := 0; completed := 0; failed := 0; inProgress := false; errors := ∅ |}.

(** An empty destination; the transfer of [c.pdf] fails at the upload. *)
Definition empty_destination : world :=
  {| headObject := fun _ => HeadRejects (ErrorObject "NotFound" "UnknownError");
     postMigrate := fun filePath =>
       if String.eqb filePath "c.pdf"
       then ResponseNotOk "Internal Server Error" (Return "upstream failure")
       else ResponseOkJson true "" |}.


(** The network is down: every request is rejected. *)
Definition offline : world :=
  {| headObject := fun _ => HeadRejects (ErrorObject "TypeError" "Failed to fetch");
     postMigrate := fun _ => FetchRejects (ErrorObject "TypeError" "Failed to fetch") |}.

Definition file (p : string) (n : nat) : Enumerator.MigrationFile :=
  {| Enumerator.path := p; Enumerator.size := n;
     Enumerator.lastModified := None; Enumerator.selected := Some true |}.

Definition two_files : list Enumerator.MigrationFile :=
  [ file "a.jpg" 10; file "b.png" 20 ].

Definition seven_files : list Enumerator.MigrationFile :=
  [ file "a.jpg" 10; file "b.png" 20; file "c.pdf" 30; file "test-1.png" 1;
    file "d.txt" 2; file "e.css" 3; file "f.js" 4 ].

End ServiceSamples.

(** A run over the seven files against the empty destination: the first
    batch of five (one of them skipped at once), then the batch of two. *)

Module RunSamples.
Import Js Service ServiceSamples.

Definition not_found : head_answer := HeadRejects (ErrorObject "NotFound" "UnknownError").

Definition seven_events : list event :=
  [ Join;
    HeadAnswer 1 not_found; HeadAnswer 0 not_found;
    FetchAnswer 1 (ResponseOkJson true "");
    HeadAnswer 4 HeadResolves; HeadAnswer 2 not_found;
    FetchAnswer 2 (ResponseNotOk "Internal Server Error" (Return "upstream failure"));
    FetchAnswer 0 (ResponseOkJson true "");
    Join;
    HeadAnswer 0 not_found; HeadAnswer 1 not_found;
    FetchAnswer 0 (ResponseOkJson true ""); FetchAnswer 1 (ResponseOkJson true "");
    Join ].

Definition seven_start : state :=
  {| progress := {| total := 7; completed := 0; failed := 0; inProgress := true;
                    errors := ∅ |};
     window := []; pending := seven_files; calls := [] |}.

Definition seven_final : state :=
  {| progress := {| total := 7; completed := 6; failed := 1; inProgress := false;
                    errors := <["c.pdf" := "Failed to upload file to R2: upstream failure"]> ∅ |};
     window := [ Ret (Return tt); Ret (Return tt) ];
     pending := [];
     calls := [ HeadObject "a.jpg"; HeadObject "b.png"; HeadObject "c.pdf";
                HeadObject "d.txt";
                PostMigrate "b.png"; PostMigrate "a.jpg"; PostMigrate "c.pdf";
                HeadObject "e.css"; HeadObject "f.js";
                PostMigrate "e.css"; PostMigrate "f.js" ] |}.

End RunSamples.

(** ** Transfer of one object ([POST /api/migrate-to-r2], [migrateFileToR2]) *)

Module Transfer.
Import Js Paths ContentType.

Record SupabaseConfig : Type := {
  supabaseUrl : string;
  supabaseKey : string;
  sourceBucketName : string
}.

Record CloudflareConfig : Type := {
  accountId : string;
  accessKeyId : string;
  secretAccessKey : string;
  bucketName : string;
  publicUrlPattern : option string;
  customDomain : option string
}.

(** The parsed body of a request; a configuration that is missing is
    [None]. *)
Record body : Type := {
  supabaseConfig : option SupabaseConfig;
  cloudflareConfig : option CloudflareConfig;
  filePath : string
}.

(** The answer [{ data, error }] of [storage.from(bucket).download(path)],
    or the exception it throws.  The blob of a successful download holds the
    whole object, so that reading it cannot fail. *)
Inductive download_answer : Type :=
| DownloadError (message : string)
| DownloadNoData
| DownloadData (blob : string)
| DownloadThrows (e : thrown).

Inductive put_answer : Type :=
| PutResolves
| PutRejects (e : thrown).

Inductive call : Type :=
| Download (bucket key : string)
| PutObject (bucket key blob : string) (contentType : value).

(** What the handler sends back. *)
Inductive outcome : Type :=
| Success (url message : string)
| Failure (error : string).

(** The objects of the destination bucket: body and content type by key. *)
Abbreviation bucket_contents := (gmap string (string * value)).

(** [error instanceof Error ? error.message : 'Unknown error occurred'] *)
Definition message_or_unknown (error : thrown) : string :=
  match error with
  | ErrorObject _ message => message
  | OtherValue => "Unknown error occurred"
  end.

Section Handlers.

(** The two stores, and the two facts about the validation library that the
    handlers depend on: which strings it accepts as URLs, and the message of
    the error it builds from the messages of the failed checks. *)
Variable download : string -> string -> download_answer.
Variable put : string -> string -> put_answer.
Variable is_url : string -> bool.
Variable zod_message : list string -> string.

Definition required (message s : string) : list string :=
  if String.eqb s "" then [message] else [].

(** The checks of [SupabaseConfigSchema] that fail, in the order of the
    fields. *)
Definition SupabaseConfigSchema (c : SupabaseConfig) : list string :=
  ((if is_url (supabaseUrl c) then [] else ["Invalid Supabase URL"])
   ++ required "Supabase service role key is required" (supabaseKey c)
   ++ required "Bucket name is required" (sourceBucketName c))%list.

Definition CloudflareConfigSchema (c : CloudflareConfig) : list string :=
  (required "Account ID is required" (accountId c)
   ++ required "Access Key ID is required" (accessKeyId c)
   ++ required "Secret Access Key is required" (secretAccessKey c)
   ++ required "Bucket name is required" (bucketName c))%list.

(** [if (validCloudflareConfig.customDomain) .. else ..] *)
Definition fileUrl (c : CloudflareConfig) (normalizedFilePath : string) : string :=
  match customDomain c with
  | Some domain =>
      if String.eqb domain "" then
        "https://" +:+ bucketName c +:+ "." +:+ accountId c
        +:+ ".r2.cloudflarestorage.com/" +:+ normalizedFilePath
      else "https://" +:+ domain +:+ "/" +:+ normalizedFilePath
  | None =>
      "https://" +:+ bucketName c +:+ "." +:+ accountId c
      +:+ ".r2.cloudflarestorage.com/" +:+ normalizedFilePath
  end.

(** From the download to the end: the same lines in the route handler and in
    the server action, which differ in the status codes only (the server
    action has none).  The result is the status, the outcome, the contents
    of the destination bucket afterwards, and the requests made. *)
Definition downloadAndUpload (validSupabaseConfig : SupabaseConfig)
    (validCloudflareConfig : CloudflareConfig) (normalizedFilePath : string)
    (destination : bucket_contents)
    : nat * outcome * bucket_contents * list call :=
  let source := sourceBucketName validSupabaseConfig in
  let target := bucketName validCloudflareConfig in
  match download source normalizedFilePath with
  | DownloadThrows e =>
      (500, Failure (message_or_unknown e), destination,
       [Download source normalizedFilePath])
  | DownloadError message =>
      (404, Failure ("Error downloading file: " +:+ message), destination,
       [Download source normalizedFilePath])
  | DownloadNoData =>
      (404, Failure "File could not be downloaded", destination,
       [Download source normalizedFilePath])
  | DownloadData blob =>
      let contentType := getContentType normalizedFilePath in
      match put target normalizedFilePath with
      | PutResolves =>
          (200,
           Success (fileUrl validCloudflareConfig normalizedFilePath)
                   ("Successfully migrated " +:+ normalizedFilePath),
           <[normalizedFilePath := (blob, contentType)]> destination,
           [Download source normalizedFilePath;
            PutObject target normalizedFilePath blob contentType])
      | PutRejects r2Error =>
          (500,
           Failure ("Failed to upload to R2: " +:+
                    match r2Error with
                    | ErrorObject _ message => message
                    | OtherValue => "Unknown R2 error"
                    end),
           destination,
           [Download source normalizedFilePath;
            PutObject target normalizedFilePath blob contentType])
      end
  end.

(** The route handler [POST]; [None] is a request whose body cannot be
    read. *)
Definition POST (request : option body) (destination : bucket_contents)
    : nat * outcome * bucket_contents * list call :=
  match request with
  | None => (500, Failure "Server error processing your request", destination, [])
  | Some b =>
      match supabaseConfig b, cloudflareConfig b with
      | Some sb, Some cf =>
          if String.eqb (filePath b) "" then
            (400, Failure "Missing required parameters", destination, [])
          else
            let normalizedFilePath := normalizePath (filePath b) in
            match SupabaseConfigSchema sb with
            | _ :: _ as issues =>
                (500, Failure (zod_message issues), destination, [])
            | [] =>
                match CloudflareConfigSchema cf with
                | _ :: _ as issues =>
                    (500, Failure (zod_message issues), destination, [])
                | [] => downloadAndUpload sb cf normalizedFilePath destination
                end
            end
      | _, _ => (400, Failure "Missing required parameters", destination, [])
      end
  end.

(** The server action [migrateFileToR2]. *)
Definition migrateFileToR2 (sb : SupabaseConfig) (cf : CloudflareConfig)
    (path : string) (destination : bucket_contents)
    : outcome * bucket_contents * list call :=
  let normalizedFilePath := normalizePath path in
  match SupabaseConfigSchema sb with
  | _ :: _ as issues =>
      (Failure ("Invalid Supabase config: " +:+ zod_message issues), destination, [])
  | [] =>
      match CloudflareConfigSchema cf with
      | _ :: _ as issues =>
          (Failure ("Invalid Cloudflare config: " +:+ zod_message issues),
           destination, [])
      | [] =>
          let '(_, result, destination', calls) :=
            downloadAndUpload sb cf normalizedFilePath destination in
          (result, destination', calls)
      end
  end.




End Handlers.

End Transfer.

(** ** Table mode ([startMigration]) *)

Module TableMigration.
Import Js.

(** The value of a column: a string, or something else (a number, [null],
    an object; a column that the row does not have reads as [undefined]). *)
Inductive cell : Type :=
| CellString (s : string)
| CellOther.

Record TableRow : Type := {
  id : string;
  columns : gmap string cell;
  selected : bool
}.

(** How the request to [/api/migrate-to-r2] and the reading of its body
    settle: rejected, or the fields [success], [error] and [url] of the body
    (an absent string is empty). *)
Inductive api_answer : Type :=
| ApiRejects (e : thrown)
| ApiJson (success : bool) (error url : string).

(** The [error] field of the answer of
    [from(table).update(..).eq('id', row.id)]. *)
Inductive update_answer : Type :=
| UpdateOk
| UpdateError (updateError : thrown).

Inductive call : Type :=
| ApiMigrate (filePath : string)
| UpdateRow (table rowId column newUrl : string).

Section StartMigration.

(** [new URL(s).pathname], or [None] when the constructor throws. *)
Variable URL_pathname : string -> option string.
Variable migrate : string -> api_answer.
Variable update : string -> string -> string -> string -> update_answer.

(** The source bucket, the destination configuration, the table and the
    column chosen in the form. *)
Variable sourceBucketName : string.
Variable cloudflareConfig : Transfer.CloudflareConfig.
Variable selectedTable : string.
Variable selectedImageColumn : string.

(** The extraction of the file path from the stored URL (the key
    extraction of the specification): the inner [try] with its [catch]. *)
Definition extractKey (imageUrl : string) : string :=
  match URL_pathname imageUrl with
  | Some pathname =>
      let pathParts := split "/" pathname in
      match findIndex sourceBucketName pathParts with
      | Some bucketIndex =>
          if (bucketIndex <? length pathParts - 1)%nat
          then join "/" (drop (bucketIndex + 1) pathParts)
          else from_option (fun part => part) "" (last pathParts)
      | None => from_option (fun part => part) "" (last pathParts)
      end
  | None => imageUrl
  end.

Definition no_url_message : string :=
  "No valid image URL found in the " +:+ quote +:+ selectedImageColumn
  +:+ quote +:+ " column".

Definition failWith (rowId message : string) (p : Service.MigrationProgress)
    : Service.MigrationProgress :=
  Service.setError rowId message (Service.incFailed p).

(** [result.url || (customDomain ? .. : ..)] *)
Definition newUrl (url filePath : string) : string :=
  if String.eqb url "" then
    match Transfer.customDomain cloudflareConfig with
    | Some domain =>
        if String.eqb domain "" then
          "https://" +:+ Transfer.bucketName cloudflareConfig +:+ "."
          +:+ Transfer.accountId cloudflareConfig
          +:+ ".r2.cloudflarestorage.com/" +:+ filePath
        else "https://" +:+ domain +:+ "/" +:+ filePath
    | None =>
        "https://" +:+ Transfer.bucketName cloudflareConfig +:+ "."
        +:+ Transfer.accountId cloudflareConfig
        +:+ ".r2.cloudflarestorage.com/" +:+ filePath
    end
  else url.

(** The body of the loop over the selected rows, for one row.  The first
    test is [!imageUrl || typeof imageUrl !== 'string' || !imageUrl.trim()]. *)
Definition migrateRow (row : TableRow) (p : Service.MigrationProgress)
    : Service.MigrationProgress * list call :=
  match columns row !! selectedImageColumn with
  | Some (CellString imageUrl) =>
      if String.eqb imageUrl "" || blank imageUrl then
        (failWith (id row) no_url_message p, [])
      else
        let filePath := extractKey imageUrl in
        if String.eqb filePath "" then
          (failWith (id row) "Could not extract file path from URL" p, [])
        else
          match migrate filePath with
          | ApiRejects error =>
              (failWith (id row) (Service.message_or "Network error" error) p,
               [ApiMigrate filePath])
          | ApiJson false error _ =>
              (failWith (id row)
                        (if String.eqb error ""
                         then "Unknown error during migration" else error) p,
               [ApiMigrate filePath])
          | ApiJson true _ url =>
              let new := newUrl url filePath in
              match update selectedTable (id row) selectedImageColumn new with
              | UpdateError updateError =>
                  (failWith (id row)
                            (Service.message_or "Network error" updateError) p,
                   [ApiMigrate filePath;
                    UpdateRow selectedTable (id row) selectedImageColumn new])
              | UpdateOk =>
                  (Service.incCompleted p,
                   [ApiMigrate filePath;
                    UpdateRow selectedTable (id row) selectedImageColumn new])
              end
          end
  | _ => (failWith (id row) no_url_message p, [])
  end.

(** [for (const row of selectedRows)] *)
Fixpoint migrateRows (rows : list TableRow) (p : Service.MigrationProgress)
    : Service.MigrationProgress * list call :=
  match rows with
  | [] => (p, [])
  | row :: rest =>
      let '(p1, cs1) := migrateRow row p in
      let '(p2, cs2) := migrateRows rest p1 in
      (p2, (cs1 ++ cs2)%list)
  end.

(** [startMigration], once the form is complete and the destination
    connected: [None] when no row is selected (an alert, nothing else). *)
Definition startMigration (rows : list TableRow)
    : option (Service.MigrationProgress * list call) :=
  let selectedRows := List.filter selected rows in
  match selectedRows with
  | [] => None
  | _ =>
      let progress :=
        {| Service.total := length selectedRows; Service.completed := 0;
           Service.failed := 0; Service.errors := ∅;
           Service.inProgress := true |} in
      let '(p, cs) := migrateRows selectedRows progress in
      Some (Service.setInProgress false p, cs)
  end.


End StartMigration.

End TableMigration.

(** Answers of the platform URL parser, and worlds for the table mode. *)

Module TableSamples.
Import Js TableMigration.

(** [new URL(s).pathname] on four strings. *)
Definition sample_URL_pathname (s : string) : option string :=
  if String.eqb s "https://proj.supabase.co/storage/v1/object/public/mybucket/images/a.png"
  then Some "/storage/v1/object/public/mybucket/images/a.png"
  else if String.eqb s "https://proj.supabase.co/storage/v1/object/public/mybucket"
  then Some "/storage/v1/object/public/mybucket"
  else if String.eqb s "https://cdn.example.org/pics/b.png"
  then Some "/pics/b.png"
  else None.

Definition destination_config : Transfer.CloudflareConfig :=
  {| Transfer.accountId := "acc"; Transfer.accessKeyId := "key";
     Transfer.secretAccessKey := "secret"; Transfer.bucketName := "target";
     Transfer.publicUrlPattern := None; Transfer.customDomain := None |}.

Definition photo_row : TableRow :=
  {| id := "42";
     columns := {[ "image" := CellString
        "https://proj.supabase.co/storage/v1/object/public/mybucket/images/a.png" ]};
     selected := true |}.

(** The transfer goes through; then the row cannot be written. *)
Definition transfer_ok : string -> api_answer :=
  fun _ => ApiJson true "" "https://target.acc.r2.cloudflarestorage.com/images/a.png".

Definition update_ok : string -> string -> string -> string -> update_answer :=
  fun _ _ _ _ => UpdateOk.

Definition started : Service.MigrationProgress :=
  {| Service.total := 1; Service.completed := 0; Service.failed := 0;
     Service.inProgress := true; Service.errors := ∅ |}.

End TableSamples.

(** Worlds for the transfer. *)

Module TransferSamples.
Import Js Transfer.

Definition source_config : SupabaseConfig :=
  {| supabaseUrl := "https://proj.supabase.co"; supabaseKey := "service-key";
     sourceBucketName := "mybucket" |}.

(** The source holds [a.jpg] only. *)
Definition one_object (bucket key : string) : download_answer :=
  if String.eqb key "a.jpg" then DownloadData "0123456789"
  else DownloadError "Object not found".

Definition put_accepts (bucket key : string) : put_answer := PutResolves.

Definition any_url (s : string) : bool := true.

Definition issues_joined (issues : list string) : string := join "; " issues.

End TransferSamples.

(** A bucket that is asked for the folder [images/], with the trailing slash. *)

Module MoreSamples.
Import Js Enumerator.

Definition trailing_slash_list (normalizedPath : string) : list_answer :=
  if String.eqb normalizedPath "images/" then
    ListData [ {| name := "a.png"; id := Some "f2"; metadata := None |} ]
  else ListData [].

End MoreSamples.

(** Which entries of [errors] a task may write. *)

Module Bookkeeping.
Import Js Service.

(** Every write to [errors] is for a key among [K] and follows at once an
    increment of [failed]. *)
Inductive tidy (K : string -> Prop) : task -> Prop :=
| tidy_ret r : tidy K (Ret r)
| tidy_completed k : tidy K k -> tidy K (IncCompleted k)
| tidy_failed key message k :
    K key -> tidy K k -> tidy K (IncFailed (SetError key message k))
| tidy_head key k : (forall a, tidy K (k a)) -> tidy K (AwaitHead key k)
| tidy_post filePath k : (forall a, tidy K (k a)) -> tidy K (AwaitPost filePath k).

(** The entries of [errors] are for keys among [K], and there are at most
    as many as [failed] counts. *)
Definition booked (K : string -> Prop) (p : MigrationProgress) : Prop :=
  (forall key, is_Some (errors p !! key) -> K key) /\
  size (errors p) <= failed p.

(** The paths of the submitted files. *)
Definition submitted (files : list Enumerator.MigrationFile) (key : string) : Prop :=
  In key (Enumerator.path <$> files).

(** What a run keeps about its entries. *)
Definition entries_kept (K : string -> Prop) (s : state) : Prop :=
  booked K (progress s) /\ Forall (tidy K) (window s) /\
  Forall (fun f => K (Enumerator.path f)) (pending s).

End Bookkeeping.

(** Counting the requests of the table mode. *)

Module TableBookkeeping.
Import TableMigration.




End TableBookkeeping.

(** ** File mode ([FileMigration]: reducer, [loadFiles], [startMigration]) *)

Module FileMode.
Import Js Enumerator.

(** [file.selected] as a condition. *)
Definition is_selected (file : MigrationFile) : bool :=
  match selected file with
  | Some true => true
  | _ => false
  end.

Definition setSelected (s : option bool) (file : MigrationFile) : MigrationFile :=
  {| path := path file; size := size file; lastModified := lastModified file;
     selected := s |}.




(** [loadFiles]: the inventory of [listFiles] with every file deselected, or
    the message that is shown; [None] when the recursion is deeper than the
    fuel. *)
Definition loadFiles (bucketName : string) (list_ : string -> list_answer)
    (fuel : nat) (prefix : string) : option (list MigrationFile + string) :=
  match (listFiles bucketName list_ fuel prefix).2 with
  | None => None
  | Some (Return filesList) =>
      Some (inl (List.map (setSelected (Some false)) filesList))
  | Some (Throw error) =>
      let errorMessage :=
        match error with
        | ErrorObject _ message => message
        | OtherValue => "An unknown error occurred"
        end in
      if includes errorMessage "not found" || includes errorMessage "does not exist"
      then Some (inr ("Bucket " +:+ quote +:+ bucketName +:+ quote +:+
                      " not found or inaccessible. Please verify your bucket name and permissions."))
      else Some (inr errorMessage)
  end.

(** [!!errors[key]]: an own entry that is not empty, or something inherited
    from [Object.prototype]. *)
Definition reads_truthy (errors : gmap string string) (key : string) : bool :=
  match errors !! key with
  | Some message => negb (String.eqb message "")
  | None => ContentType.truthy (ContentType.inherited key)
  end.

(** How a call of the server action from the browser ends: the answer
    arrives; or the call is rejected before the action has run; or the
    action has run and the answer is lost. *)
Inductive delivery : Type :=
| Delivered
| LostBefore (e : thrown)
| LostAfter (e : thrown).

(** The local variables [completed], [failed] and [errors] of
    [startMigration], with the contents of the destination bucket and the
    requests made by the server action. *)
Record tally : Type := {
  completed : nat;
  failed : nat;
  errors : gmap string string;
  destination : Transfer.bucket_contents;
  requests : list Transfer.call
}.

(** What [startMigration] leaves behind. *)
Record after : Type := {
  finalProgress : Service.MigrationProgress;
  newMigratedFiles : gset string;
  updatedFiles : list MigrationFile;
  newDestination : Transfer.bucket_contents;
  allRequests : list Transfer.call
}.

Section StartMigration.

Variable download : string -> string -> Transfer.download_answer.
Variable put : string -> string -> Transfer.put_answer.
Variable is_url : string -> bool.
Variable zod_message : list string -> string.
Variable transport : string -> delivery.
Variable supabaseConfig : Transfer.SupabaseConfig.
Variable cloudflareConfig : Transfer.CloudflareConfig.

Definition recordFailure (key message : string) (t : tally)
    (destination' : Transfer.bucket_contents) (made : list Transfer.call) : tally :=
  {| completed := completed t; failed := S (failed t);
     errors := assign key message (errors t);
     destination := destination';
     requests := (requests t ++ made)%list |}.

(** The body of the loop of [migrateFilesWithTracking] for one file. *)
Definition migrateOne (file : MigrationFile) (t : tally) : tally :=
  match transport (path file) with
  | LostBefore error =>
      recordFailure (path file) (Service.message_or "Network error" error) t
                    (destination t) []
  | LostAfter error =>
      let '(_, destination', made) :=
        Transfer.migrateFileToR2 download put is_url zod_message
          supabaseConfig cloudflareConfig (path file) (destination t) in
      recordFailure (path file) (Service.message_or "Network error" error) t
                    destination' made
  | Delivered =>
      let '(result, destination', made) :=
        Transfer.migrateFileToR2 download put is_url zod_message
          supabaseConfig cloudflareConfig (path file) (destination t) in
      match result with
      | Transfer.Success _ _ =>
          {| completed := S (completed t); failed := failed t;
             errors := errors t; destination := destination';
             requests := (requests t ++ made)%list |}
      | Transfer.Failure error =>
          recordFailure (path file)
                        (if String.eqb error "" then "Unknown error" else error)
                        t destination' made
      end
  end.

(** [for (const file of files)] *)
Fixpoint migrateFilesWithTracking (files : list MigrationFile) (t : tally) : tally :=
  match files with
  | [] => t
  | file :: rest => migrateFilesWithTracking rest (migrateOne file t)
  end.

(** [startMigration]; [None] when no file is selected (an alert, nothing
    else). *)
Definition startMigration (files : list MigrationFile)
    (migratedFiles : gset string) (destination0 : Transfer.bucket_contents)
    : option after :=
  let selectedFiles := List.filter is_selected files in
  match selectedFiles with
  | [] => None
  | _ =>
      let totalFiles := length selectedFiles in
      let t := migrateFilesWithTracking selectedFiles
                 {| completed := 0; failed := 0; errors := ∅;
                    destination := destination0; requests := [] |} in
      Some
        {| finalProgress :=
             {| Service.total := totalFiles; Service.completed := completed t;
                Service.failed := failed t; Service.errors := errors t;
                Service.inProgress := false |};
           newMigratedFiles :=
             migratedFiles ∪
             list_to_set
               (path <$> List.filter
                           (fun file => negb (reads_truthy (errors t) (path file)))
                           selectedFiles);
           updatedFiles :=
             List.map
               (fun file =>
                  match selected file with
                  | Some true =>
                      setSelected (Some (reads_truthy (errors t) (path file))) file
                  | _ => file
                  end)
               files;
           newDestination := destination t;
           allRequests := requests t |}
  end.

End StartMigration.

(** The key a request of the server action is about. *)
Definition request_key (c : Transfer.call) : string :=
  match c with
  | Transfer.Download _ key => key
  | Transfer.PutObject _ key _ _ => key
  end.

End FileMode.

(** A run of the file mode: [a.jpg] is at the source, [zzz.bin] is not, and
    [b.png] is not selected. *)

Module FileModeSamples.
Import Js Enumerator FileMode.

Definition always_delivered (p : string) : delivery := Delivered.

Definition three_files : list MigrationFile :=
  [ {| path := "a.jpg"; size := 10; lastModified := None; selected := Some true |};
    {| path := "zzz.bin"; size := 5; lastModified := None; selected := Some true |};
    {| path := "b.png"; size := 20; lastModified := None; selected := Some false |} ].

Definition three_files_after : after :=
  {| finalProgress :=
       {| Service.total := 2; Service.completed := 1; Service.failed := 1;
          Service.inProgress := false;
          Service.errors :=
            {[ "zzz.bin" := "Error downloading file: Object not found" ]} |};
     newMigratedFiles := {[ "a.jpg" ]};
     updatedFiles :=
       [ {| path := "a.jpg"; size := 10; lastModified := None;
            selected := Some false |};
         {| path := "zzz.bin"; size := 5; lastModified := None;
            selected := Some true |};
         {| path := "b.png"; size := 20; lastModified := None;
            selected := Some false |} ];
     newDestination :=
       {[ "a.jpg" := ("0123456789", ContentType.VString "image/jpeg") ]};
     allRequests :=
       [ Transfer.Download "mybucket" "a.jpg";
         Transfer.PutObject "target" "a.jpg" "0123456789"
                            (ContentType.VString "image/jpeg");
         Transfer.Download "mybucket" "zzz.bin" ] |}.

(** A bucket that cannot be listed. *)
Definition missing_bucket (normalizedPath : string) : list_answer :=
  ListError "StorageApiError" "Bucket not found".

End FileModeSamples.

(** ** The list of tables ([POST /api/tables]) *)

Module TablesRoute.
Import Js.

(** A row of one of the three catalogue queries; a column that the row does
    not have is [None]. *)
Record table_row : Type := {
  table_name : option string;
  tablename : option string;
  name : option string
}.

(** [a || b] on values that are strings or [undefined]. *)
Definition or_else (a b : option string) : option string :=
  match a with
  | Some s => if String.eqb s "" then b else a
  | None => b
  end.

(** The answer [{ data, error }] of a query, or the exception it throws;
    [QueryData []] also stands for [data] being [null]. *)
Inductive query_answer : Type :=
| QueryThrows (e : thrown)
| QueryError (message : string)
| QueryData (data : list table_row).

Inductive query : Type := Rpc | InformationSchema | SqlTables.

Record credentials : Type := {
  supabaseUrl : string;
  supabaseKey : string;
  bucketName : string
}.

(** The answer: the list of tables (with the note and the debug text when
    it is the default list), or an error with its status. *)
Inductive response : Type :=
| Tables (tables : list (option string))
| DefaultTables (tables : list (option string)) (debug : string)
| RouteError (status : nat) (error : string).

Section Route.

(** [createClient] throws, or not; the answers of the three queries. *)
Variable createClient : option thrown.
Variable rpc information_schema sqlj_tables : query_answer.

(** What a query that gives no rows adds to [errorMessage]. *)
Definition complaint (failed_text exception_text : string) (a : query_answer)
    : string :=
  match a with
  | QueryThrows err =>
      exception_text +:+
      match err with ErrorObject _ m => m | OtherValue => "Unknown error" end
      +:+ ". "
  | QueryError message => failed_text +:+ message +:+ ". "
  | QueryData _ => ""
  end.

Definition defaultTables (bucket : string) : list (option string) :=
  if negb (String.eqb bucket "") &&
     negb (existsb (String.eqb bucket) [ "images"; "profiles"; "users" ])
  then [ Some bucket; Some "images"; Some "profiles"; Some "users" ]
  else [ Some "images"; Some "profiles"; Some "users" ].

Definition POST (body : completion credentials) : response * list query :=
  match body with
  | Throw error =>
      (RouteError 500 (match error with
                       | ErrorObject _ m => m
                       | OtherValue => "Unknown error occurred"
                       end), [])
  | Return c =>
      if String.eqb (supabaseUrl c) "" || String.eqb (supabaseKey c) "" then
        (RouteError 400 "Missing required Supabase credentials", [])
      else
        match createClient with
        | Some error =>
            (RouteError 500 (match error with
                             | ErrorObject _ m => m
                             | OtherValue => "Unknown error occurred"
                             end), [])
        | None =>
            match rpc with
            | QueryData ((_ :: _) as data) =>
                (Tables (List.map (fun t => or_else (table_name t) (tablename t)) data),
                 [Rpc])
            | _ =>
                let errorMessage1 :=
                  complaint "RPC method failed: " "RPC call exception: " rpc in
                match information_schema with
                | QueryData ((_ :: _) as data) =>
                    (Tables (List.map table_name data), [Rpc; InformationSchema])
                | _ =>
                    let errorMessage2 :=
                      errorMessage1 +:+
                      complaint "Information schema method failed: "
                                "Information schema exception: "
                                information_schema in
                    match sqlj_tables with
                    | QueryData ((_ :: _) as data) =>
                        (Tables (List.map
                                   (fun item =>
                                      or_else (or_else (name item) (table_name item))
                                              (tablename item))
                                   data),
                         [Rpc; InformationSchema; SqlTables])
                    | _ =>
                        let errorMessage3 :=
                          errorMessage2 +:+
                          complaint "SQL method failed: " "SQL exception: "
                                    sqlj_tables in
                        (DefaultTables (defaultTables (bucketName c)) errorMessage3,
                         [Rpc; InformationSchema; SqlTables])
                    end
                end
            end
        end
  end.

End Route.

End TablesRoute.

(** ** Checking the destination ([connectToR2], [POST /api/validate-r2]) *)

Module Connection.
Import Js.

Record r2_credentials : Type := {
  accountId : string;
  accessKeyId : string;
  secretAccessKey : string;
  bucketName : string
}.

Inductive result : Type :=
| Connected (message : string)
| Refused (error : string).

(** The HEAD request for a bucket, with the account it is sent to. *)
Inductive call : Type := HeadBucket (account bucket : string).

Section Check.

(** [client.send(new HeadBucketCommand(..))]: [None] when it resolves. *)
Variable headBucket : string -> string -> option thrown.

(** The server action. *)
Definition connectToR2 (c : r2_credentials) : result * list call :=
  if String.eqb (accountId c) "" || String.eqb (accessKeyId c) ""
     || String.eqb (secretAccessKey c) "" || String.eqb (bucketName c) ""
  then (Refused "Missing required credentials", [])
  else
    match headBucket (accountId c) (bucketName c) with
    | None =>
        (Connected ("Successfully connected to bucket: " +:+ bucketName c),
         [HeadBucket (accountId c) (bucketName c)])
    | Some _ =>
        (Refused "Bucket not found or not accessible. Please check your credentials and bucket name.",
         [HeadBucket (accountId c) (bucketName c)])
    end.

(** The route handler, which also answers with a status; [None] is a body
    that cannot be read. *)
Definition POST (body : option r2_credentials) : nat * result * list call :=
  match body with
  | None => (500, Refused "Server error processing your request", [])
  | Some c =>
      if String.eqb (accountId c) "" || String.eqb (accessKeyId c) ""
         || String.eqb (secretAccessKey c) "" || String.eqb (bucketName c) ""
      then (400, Refused "Missing required credentials", [])
      else
        match headBucket (accountId c) (bucketName c) with
        | None =>
            (200, Connected ("Successfully connected to bucket: " +:+ bucketName c),
             [HeadBucket (accountId c) (bucketName c)])
        | Some _ =>
            (404,
             Refused "Bucket not found or not accessible. Please check your credentials and bucket name.",
             [HeadBucket (accountId c) (bucketName c)])
        end
  end.

End Check.

End Connection.

(** ** Clients ([initSupabaseClient], the constructor of [MigrationService]) *)

Module Clients.
Import Js.

(** A client, by what [createClient] was called with. *)
Record client : Type := {
  client_url : string;
  client_key : string
}.

Section Init.

Variable is_url : string -> bool.
Variable zod_message : list string -> string.

Definition cacheKey (c : Transfer.SupabaseConfig) : string :=
  Transfer.supabaseUrl c +:+ ":" +:+ Transfer.supabaseKey c +:+ ":"
  +:+ Transfer.sourceBucketName c.

(** [initSupabaseClient], with the module-level [supabaseClientCache]
    passed in and out; the third component lists the clients created.  A
    cache key contains colons, so it is the name of no inherited
    property. *)
Definition initSupabaseClient (config : Transfer.SupabaseConfig)
    (supabaseClientCache : gmap string client)
    : completion client * gmap string client * list client :=
  match Transfer.SupabaseConfigSchema is_url config with
  | (_ :: _) as issues =>
      (Throw (ErrorObject "ZodError" (zod_message issues)), supabaseClientCache, [])
  | [] =>
      match supabaseClientCache !! cacheKey config with
      | Some cached => (Return cached, supabaseClientCache, [])
      | None =>
          let created := {| client_url := Transfer.supabaseUrl config;
                            client_key := Transfer.supabaseKey config |} in
          (Return created, <[cacheKey config := created]> supabaseClientCache,
           [created])
      end
  end.

(** The destination client of a [MigrationService]: the constructor builds
    one only when the four fields are all there. *)
Definition hasR2Client (cloudflareConfig : Transfer.CloudflareConfig) : bool :=
  negb (String.eqb (Transfer.accountId cloudflareConfig) "")
  && negb (String.eqb (Transfer.accessKeyId cloudflareConfig) "")
  && negb (String.eqb (Transfer.secretAccessKey cloudflareConfig) "")
  && negb (String.eqb (Transfer.bucketName cloudflareConfig) "").

(** A service: its source client, whether it has a destination client, and
    its progress record. *)
Record service : Type := {
  supabase : client;
  r2Client : bool;
  progress : Service.MigrationProgress
}.

(** [new MigrationService(supabaseConfig, cloudflareConfig)]; the schema of
    the destination is checked inside [initCloudflareR2Client]. *)
Definition newMigrationService (supabaseConfig : Transfer.SupabaseConfig)
    (cloudflareConfig : Transfer.CloudflareConfig)
    (supabaseClientCache : gmap string client)
    : completion service * gmap string client :=
  match initSupabaseClient supabaseConfig supabaseClientCache with
  | (Throw e, cache, _) => (Throw e, cache)
  | (Return c, cache, _) =>
      if hasR2Client cloudflareConfig then
        match Transfer.CloudflareConfigSchema cloudflareConfig with
        | (_ :: _) as issues => (Throw (ErrorObject "ZodError" (zod_message issues)), cache)
        | [] =>
            (Return {| supabase := c; r2Client := true;
                       progress := {| Service.total := 0; Service.completed := 0;
                                      Service.failed := 0;
                                      Service.inProgress := false;
                                      Service.errors := ∅ |} |}, cache)
        end
      else
        (Return {| supabase := c; r2Client := false;
                   progress := {| Service.total := 0; Service.completed := 0;
                                  Service.failed := 0;
                                  Service.inProgress := false;
                                  Service.errors := ∅ |} |}, cache)
  end.

End Init.

(** The configuration that [FileMigration] passes while the destination is
    not connected: [{}]. *)
Definition no_cloudflare : Transfer.CloudflareConfig :=
  {| Transfer.accountId := ""; Transfer.accessKeyId := "";
     Transfer.secretAccessKey := ""; Transfer.bucketName := "";
     Transfer.publicUrlPattern := None; Transfer.customDomain := None |}.

End Clients.

(** * Verification *)

Import Js Paths.

(** ** Strings *)

Section StringFacts.

Lemma startsWith_app (p rest : string) : startsWith (p +:+ rest) p = true.
Proof.
  induction p as [|c p IH]; simpl; [done|].
  by rewrite Ascii.eqb_refl, IH.
Qed.

Lemma startsWith_inv (s p : string) :
  startsWith s p = true -> exists rest, s = p +:+ rest.
Proof.
  revert s; induction p as [|b p IH]; intros s H; simpl in *.
  - by exists s.
  - destruct s as [|a s]; [done|].
    apply andb_true_iff in H as [Hab Hs].
    apply Ascii.eqb_eq in Hab as ->.
    destruct (IH _ Hs) as [rest ->]. by exists rest.
Qed.

Lemma includes_app (pre p post : string) :
  includes (pre +:+ p +:+ post) p = true.
Proof.
  induction pre as [|c pre IH]; simpl.
  - destruct p; simpl; [by destruct post|].
    by rewrite Ascii.eqb_refl, startsWith_app.
  - rewrite IH. apply orb_true_r.
Qed.

Lemma includes_inv (s p : string) :
  includes s p = true -> exists pre post, s = pre +:+ p +:+ post.
Proof.
  induction s as [|c s IH]; simpl; intros H.
  - apply orb_true_iff in H as [H|H]; [|done].
    destruct (startsWith_inv _ _ H) as [rest ->]. by exists "", rest.
  - apply orb_true_iff in H as [H|H].
    + destruct (startsWith_inv _ _ H) as [rest ->]. by exists "", rest.
    + destruct (IH H) as (pre & post & ->). by exists (String c pre), post.
Qed.

End StringFacts.

(** ** Path normaliser *)

Section Normaliser.

(** One equation for [replace_slash_runs], whatever follows the first unit. *)
Lemma replace_slash_runs_cons (c : ascii) (rest : string) :
  replace_slash_runs (String c rest) =
  if is_slash c then
    if startsWith rest "/" then replace_slash_runs rest
    else String "/" (replace_slash_runs rest)
  else String c (replace_slash_runs rest).
Proof.
  simpl. destruct (is_slash c); [|done].
  destruct rest as [|c' rest]; [done|].
  simpl. unfold is_slash. rewrite andb_true_r. done.
Qed.

Lemma is_slash_eq (c : ascii) : is_slash c = true -> c = "/"%char.
Proof. apply Ascii.eqb_eq. Qed.

Lemma startsWith_slash_cons (c : ascii) (rest : string) :
  startsWith (String c rest) "/" = is_slash c.
Proof. simpl. apply andb_true_r. Qed.

Lemma startsWith_replace_slash_runs (s : string) :
  startsWith (replace_slash_runs s) "/" = startsWith s "/".
Proof.
  induction s as [|c rest IH]; [done|].
  rewrite replace_slash_runs_cons, startsWith_slash_cons.
  destruct (is_slash c) eqn:Hc.
  - destruct (startsWith rest "/") eqn:Hr; [by rewrite IH|done].
  - by rewrite startsWith_slash_cons.
Qed.

Lemma includes_double_slash_cons (c : ascii) (rest : string) :
  includes (String c rest) "//" =
  (is_slash c && startsWith rest "/") || includes rest "//".
Proof. done. Qed.

(** After the replacement no two slashes are adjacent. *)
Lemma replace_slash_runs_no_double (s : string) :
  includes (replace_slash_runs s) "//" = false.
Proof.
  induction s as [|c rest IH]; [done|].
  rewrite replace_slash_runs_cons.
  destruct (is_slash c) eqn:Hc.
  - destruct (startsWith rest "/") eqn:Hr; [done|].
    rewrite includes_double_slash_cons, IH, startsWith_replace_slash_runs, Hr.
    done.
  - by rewrite includes_double_slash_cons, Hc, IH.
Qed.

(** A string without adjacent slashes is left as it is. *)
Lemma replace_slash_runs_fixed (s : string) :
  includes s "//" = false -> replace_slash_runs s = s.
Proof.
  induction s as [|c rest IH]; [done|].
  rewrite includes_double_slash_cons, replace_slash_runs_cons.
  intros [H1 H2]%orb_false_iff.
  rewrite (IH H2).
  destruct (is_slash c) eqn:Hc; [|done].
  change (startsWith rest "/" = false) in H1.
  by rewrite H1, (is_slash_eq _ Hc).
Qed.

Lemma startsWith_app_slash (a b1 b2 : string) :
  startsWith b1 "/" = startsWith b2 "/" ->
  startsWith (a +:+ b1) "/" = startsWith (a +:+ b2) "/".
Proof. destruct a; [done|]. intros _. simpl. done. Qed.

Lemma replace_slash_runs_app (a b1 b2 : string) :
  startsWith b1 "/" = startsWith b2 "/" ->
  replace_slash_runs b1 = replace_slash_runs b2 ->
  replace_slash_runs (a +:+ b1) = replace_slash_runs (a +:+ b2).
Proof.
  intros Hs Hr. induction a as [|c a IH]; [done|].
  change (String c a +:+ b1) with (String c (a +:+ b1)).
  change (String c a +:+ b2) with (String c (a +:+ b2)).
  rewrite !replace_slash_runs_cons, IH.
  by rewrite (startsWith_app_slash a b1 b2 Hs).
Qed.

Lemma replace_slash_runs_slashes (n : nat) (b : string) :
  replace_slash_runs (slashes (S n) +:+ b) = replace_slash_runs ("/" +:+ b).
Proof.
  induction n as [|n IH]; [done|].
  change (slashes (S (S n)) +:+ b) with (String "/" (slashes (S n) +:+ b)).
  rewrite replace_slash_runs_cons. exact IH.
Qed.

(** A run of slashes anywhere in the input counts as one slash. *)
Lemma replace_slash_runs_run (a b : string) (n : nat) :
  replace_slash_runs (a +:+ slashes (S n) +:+ b) =
  replace_slash_runs (a +:+ "/" +:+ b).
Proof.
  apply replace_slash_runs_app; [done|apply replace_slash_runs_slashes].
Qed.

Lemma normalizePath_no_double (x : string) :
  includes (normalizePath x) "//" = false.
Proof.
  unfold normalizePath.
  pose proof (replace_slash_runs_no_double x) as H.
  destruct (replace_slash_runs x) as [|c r]; [done|].
  rewrite startsWith_slash_cons.
  destruct (is_slash c); [|done].
  rewrite includes_double_slash_cons in H.
  by apply orb_false_iff in H as [_ H].
Qed.

Lemma normalizePath_no_leading_slash (x : string) :
  startsWith (normalizePath x) "/" = false.
Proof.
  unfold normalizePath.
  pose proof (replace_slash_runs_no_double x) as H.
  destruct (replace_slash_runs x) as [|c r]; [done|].
  rewrite startsWith_slash_cons.
  destruct (is_slash c) eqn:Hc; [|by rewrite startsWith_slash_cons].
  rewrite includes_double_slash_cons, Hc in H.
  by apply orb_false_iff in H as [H _].
Qed.

Lemma normalizePath_idempotent (x : string) :
  normalizePath (normalizePath x) = normalizePath x.
Proof.
  pose proof (normalizePath_no_double x) as Hd.
  pose proof (normalizePath_no_leading_slash x) as Hl.
  unfold normalizePath at 1.
  by rewrite (replace_slash_runs_fixed _ Hd), Hl.
Qed.

(** C5.  [normalizePath] is a total function; it is idempotent; it maps
    [a//b/c] to [a/b/c] and [/a/b] to [a/b]; a run of slashes anywhere in the
    input is treated as one slash, the result has no two adjacent slashes,
    and the result is the collapsed input without its leading slash, if it
    has one (so that the result never starts with a slash). *)
Theorem normalizePath_collapses_and_is_idempotent :
  (forall x, normalizePath (normalizePath x) = normalizePath x) /\
  normalizePath "a//b/c" = "a/b/c" /\
  normalizePath "/a/b" = "a/b" /\
  (forall a b n,
      normalizePath (a +:+ slashes (S n) +:+ b) = normalizePath (a +:+ "/" +:+ b)) /\
  (forall x, includes (normalizePath x) "//" = false) /\
  (forall x, includes x "//" = false ->
             normalizePath x = if startsWith x "/" then substring1 x else x) /\
  (forall x, startsWith (normalizePath x) "/" = false).
Proof.
  split; [exact normalizePath_idempotent|].
  split; [reflexivity|]. split; [reflexivity|].
  split; [|split; [exact normalizePath_no_double|split]].
  - intros a b n. unfold normalizePath. by rewrite replace_slash_runs_run.
  - intros x Hx. unfold normalizePath. by rewrite (replace_slash_runs_fixed _ Hx).
  - exact normalizePath_no_leading_slash.
Qed.

(** The clause of C5 on inputs without adjacent slashes, at [/a/b]. *)
Lemma normalizePath_collapses_witness :
  includes "/a/b" "//" = false /\ normalizePath "/a/b" = "a/b".
Proof.
  split; [reflexivity|].
  exact (proj1 (proj2 (proj2 (proj2 (proj2 (proj2
           normalizePath_collapses_and_is_idempotent))))) "/a/b" eq_refl).
Defined.

End Normaliser.

(** ** Skip filter *)

Section SkipFilter.

Lemma shouldSkipPath_pattern (path pattern : string) :
  In pattern skipPatterns ->
  includes path pattern = true ->
  shouldSkipPath path = true.
Proof.
  intros Hin Hinc. unfold shouldSkipPath.
  apply existsb_exists. by exists pattern.
Qed.

Lemma shouldSkipPath_containing (pre pattern post : string) :
  In pattern skipPatterns ->
  shouldSkipPath (pre +:+ pattern +:+ post) = true.
Proof.
  intros Hin. apply (shouldSkipPath_pattern _ pattern Hin), includes_app.
Qed.

(** C6.  Every path that contains one of [/test/], [/sample/],
    [/examples/], [test-], [mock-] or [.emptyFolderPlaceholder] is skipped,
    and [images/photo.jpg] is not. *)
Theorem shouldSkipPath_markers :
  Forall (fun marker =>
            forall pre post, shouldSkipPath (pre +:+ marker +:+ post) = true)
         [ "/test/"; "/sample/"; "/examples/"; "test-"; "mock-";
           ".emptyFolderPlaceholder" ] /\
  shouldSkipPath "images/photo.jpg" = false.
Proof.
  split; [|reflexivity].
  repeat (apply Forall_cons; split;
          [intros pre post; apply shouldSkipPath_containing; simpl; tauto|]).
  apply Forall_nil. done.
Qed.

End SkipFilter.

(** ** Content types *)

Section ContentTypes.
Import ContentType.

Lemma lower_unit_idempotent (c : ascii) : lower_unit (lower_unit c) = lower_unit c.
Proof. by destruct c as [[] [] [] [] [] [] [] []]. Qed.

Lemma toLowerCase_idempotent (s : string) :
  toLowerCase (toLowerCase s) = toLowerCase s.
Proof.
  induction s as [|c s IH]; [done|].
  simpl. by rewrite lower_unit_idempotent, IH.
Qed.

(** A lower-cased key reaches nothing in [Object.prototype] but
    [constructor] and [__proto__]: every other name there has a capital. *)
Lemma inherited_toLowerCase (e : string) :
  toLowerCase e <> "constructor" ->
  toLowerCase e <> "__proto__" ->
  inherited (toLowerCase e) = VUndefined.
Proof.
  intros Hc Hp. unfold inherited.
  destruct (String.eqb_spec (toLowerCase e) "constructor"); [done|].
  destruct (String.eqb_spec (toLowerCase e) "__proto__"); [done|].
  destruct (existsb _ _) eqn:Hex; [|done].
  apply existsb_exists in Hex as (m & Hin & Heq).
  apply String.eqb_eq in Heq.
  pose proof (toLowerCase_idempotent e) as Hid.
  rewrite Heq in Hid.
  simpl in Hin.
  repeat (destruct Hin as [<-|Hin]; [discriminate Hid|]).
  done.
Qed.

(** Where the fallback applies: the extension, lower-cased, is neither a key
    of the table nor one of the two inherited names. *)
Lemma lookupContentType_fallback (table : list (string * string))
    (path e : string) :
  last (split "." path) = Some e ->
  own table (toLowerCase e) = None ->
  toLowerCase e <> "constructor" ->
  toLowerCase e <> "__proto__" ->
  lookupContentType table path = VString "application/octet-stream".
Proof.
  intros Hlast Hown Hc Hp. unfold lookupContentType.
  rewrite Hlast. simpl. unfold get. rewrite Hown.
  rewrite (inherited_toLowerCase e Hc Hp). simpl.
  by rewrite andb_false_r.
Qed.

(** Every row of the table is found, also in capitals. *)
Lemma getContentType_table :
  Forall (fun row =>
            getContentType ("x/y." +:+ fst row) = VString (snd row) /\
            getContentType ("x/Y." +:+ fst row) = VString (snd row))
         contentTypes /\
  getContentType "x/y.PNG" = VString "image/png" /\
  getContentType "x/y.JpEg" = VString "image/jpeg" /\
  getContentType "x/y.unknownext" = VString "application/octet-stream" /\
  getContentType "noextension" = VString "application/octet-stream" /\
  getContentType "trailing." = VString "application/octet-stream".
Proof.
  split; [|by repeat split].
  unfold contentTypes.
  repeat (apply Forall_cons; split; [by split|]).
  by apply Forall_nil.
Qed.

(** C9, at the failing input.  For a file whose extension is [constructor]
    or [__proto__] the lookup goes through the prototype chain of the table
    object and finds a truthy value there, so [getContentType] hands back the
    function [Object] (or the object [Object.prototype]) and not the string
    [application/octet-stream]; both copies of the function agree. *)
Theorem getContentType_inherited_extension :
  getContentType "x/y.constructor" = VObjectConstructor /\
  getContentType "x/y.__proto__" = VObjectPrototype /\
  serviceGetContentType "x/y.constructor" = VObjectConstructor /\
  serviceGetContentType "x/y.__proto__" = VObjectPrototype /\
  own contentTypes "constructor" = None /\
  own serviceContentTypes "constructor" = None /\
  getContentType "x/y.constructor" <> VString "application/octet-stream".
Proof. by repeat split. Qed.

End ContentTypes.

(** ** Source enumeration *)

Section Enumeration.
Import Enumerator.

Lemma listItems_kept (rec : string -> listing) (normalizedPath : string) :
  (forall p calls files, rec p = (calls, Some (Return files)) -> Forall kept files) ->
  forall data files calls calls' files',
    Forall kept files ->
    listItems rec normalizedPath data files calls = (calls', Some (Return files')) ->
    Forall kept files'.
Proof.
  intros Hrec data.
  induction data as [|item rest IH]; intros files calls calls' files' Hfiles; simpl.
  - intros [= _ <-]. exact Hfiles.
  - destruct (shouldSkipPath (joinPath normalizedPath (name item))) eqn:Hskip.
    { apply IH, Hfiles. }
    destruct (no_id item).
    + destruct (rec (joinPath normalizedPath (name item)))
        as [subCalls [[subFiles|e]|]] eqn:Hsub; [|done|done].
      apply IH. apply Forall_app; split; [exact Hfiles|].
      exact (Hrec _ _ _ Hsub).
    + apply IH. apply Forall_app; split; [exact Hfiles|].
      apply Forall_cons; split; [|apply Forall_nil; done].
      by split.
Qed.

Lemma listFiles_kept (bucketName : string) (list_ : string -> list_answer)
    (fuel : nat) :
  forall start calls files,
    listFiles bucketName list_ fuel start = (calls, Some (Return files)) ->
    Forall kept files.
Proof.
  induction fuel as [|fuel IH]; intros start calls files; simpl; [done|].
  destruct (String.eqb bucketName ""); [done|].
  destruct (shouldSkipPath (normalizePath start)).
  { intros [= _ <-]. by apply Forall_nil. }
  destruct (list_ (normalizePath start)) as [en msg| |data].
  - by destruct (_ || _).
  - done.
  - apply (listItems_kept _ _ IH). by apply Forall_nil.
Qed.

(** C10, as the code has it.  Every record that [listFiles] returns has a
    path the skip filter does not match and is marked selected; and when a
    bucket name is configured and the normalised start path matches the skip
    filter, [listFiles] returns the empty list without any listing call. *)
Theorem listFiles_inventory_is_filtered (bucketName : string)
    (list_ : string -> list_answer) (fuel : nat) (start : string) :
  (forall calls files,
      listFiles bucketName list_ fuel start = (calls, Some (Return files)) ->
      Forall (fun f => shouldSkipPath (path f) = false /\ selected f = Some true)
             files) /\
  (bucketName <> "" ->
   shouldSkipPath (normalizePath start) = true ->
   listFiles bucketName list_ (S fuel) start = ([], Some (Return []))).
Proof.
  split.
  - intros calls files H. exact (listFiles_kept _ _ _ _ _ _ H).
  - intros Hb Hskip. simpl.
    destruct (String.eqb_spec bucketName ""); [done|].
    by rewrite Hskip.
Qed.

(** C10 on the sample bucket: the inventory of the whole bucket, and the
    start path [images/test-data] that is skipped outright. *)
Lemma listFiles_inventory_witness :
  Forall (fun f => shouldSkipPath (path f) = false /\ selected f = Some true)
         [ {| path := "readme.txt"; size := 12; lastModified := None;
              selected := Some true |};
           {| path := "images/a.png"; size := 20;
              lastModified := Some "2024-01-01"; selected := Some true |} ] /\
  listFiles "media" Samples.sample_list 1 "images//test-data" = ([], Some (Return [])).
Proof.
  split.
  - apply (proj1 (listFiles_inventory_is_filtered
                    "media" Samples.sample_list 3 "") [ ""; "images" ]).
    reflexivity.
  - apply (proj2 (listFiles_inventory_is_filtered
                    "media" Samples.sample_list 0 "images//test-data")).
    + discriminate.
    + reflexivity.
Defined.

(** C10 as stated fails: the start path [/test/x] matches the skip filter,
    but the filter is asked about the normalised path [test/x], which it does
    not match; the folder is listed and its file is returned. *)
Lemma listFiles_raw_start_path_counterexample :
  shouldSkipPath "/test/x" = true /\
  listFiles "media" Samples.sample_list 2 "/test/x" =
    ( [ "test/x" ],
      Some (Return [ {| path := "test/x/b.png"; size := 0; lastModified := None;
                        selected := Some true |} ]) ) /\
  ~ (forall start,
        shouldSkipPath start = true ->
        listFiles "media" Samples.sample_list 2 start = ([], Some (Return []))).
Proof.
  split; [reflexivity|]. split; [reflexivity|].
  intros H. specialize (H "/test/x" eq_refl). discriminate H.
Qed.

End Enumeration.

(** ** Batch scheduler *)

Section Scheduler.
Import Service.

Lemma advance_quiet (t : task) (p : MigrationProgress) :
  quiet t ->
  exists p', advance t p = (p', Ret (Return tt)) /\
             total p' = total p /\ inProgress p' = inProgress p /\
             completed p' = completed p /\ failed p' = failed p.
Proof.
  intros H. revert p. induction H as [|key message k _ IH]; intros p; simpl.
  - by exists p.
  - destruct (IH (setError key message p)) as (p' & -> & ? & ? & ? & ?).
    by exists p'.
Qed.

(** The last leg of a task moves exactly one counter by one. *)
Lemma advance_last_leg (t : task) (p : MigrationProgress) :
  last_leg t ->
  exists p', advance t p = (p', Ret (Return tt)) /\
             total p' = total p /\ inProgress p' = inProgress p /\
             (completed p' = S (completed p) /\ failed p' = failed p \/
              completed p' = completed p /\ failed p' = S (failed p)).
Proof.
  intros H. revert p. induction H as [k Hk|k Hk|key message k _ IH]; intros p; simpl.
  - destruct (advance_quiet k (incCompleted p) Hk) as (p' & -> & ? & ? & ? & ?).
    exists p'. simpl in *. repeat split; auto.
  - destruct (advance_quiet k (incFailed p) Hk) as (p' & -> & ? & ? & ? & ?).
    exists p'. simpl in *. repeat split; auto.
  - destruct (IH (setError key message p)) as (p' & -> & ? & ? & ?).
    by exists p'.
Qed.


Lemma advance_resumable (t : task) (p : MigrationProgress) :
  resumable t ->
  exists p' t', advance t p = (p', t') /\ settles_one p p' t'.
Proof.
  intros [H|H].
  - destruct (advance_last_leg t p H) as (p' & Hadv & Ht & Hi & Hc).
    exists p', (Ret (Return tt)). split; [done|].
    unfold settles_one, owing. cbn. intuition lia.
  - destruct t; try done.
    exists p, (AwaitPost filePath k). split; [done|].
    unfold settles_one, owing. cbn. intuition lia.
Qed.

Lemma advance_startable (t : task) (p : MigrationProgress) :
  startable t ->
  exists p' t', advance t p = (p', t') /\
    sound t' /\ rank t' <= 2 /\
    total p' = total p /\ inProgress p' = inProgress p /\
    completed p' + failed p' + owing t' = S (completed p + failed p).
Proof.
  intros [H|H].
  - destruct (advance_last_leg t p H) as (p' & Hadv & Ht & Hi & Hc).
    exists p', (Ret (Return tt)). split; [done|].
    unfold owing. cbn. intuition lia.
  - destruct t; try done.
    exists p, (AwaitHead key k). split; [done|].
    unfold owing. cbn. intuition lia.
Qed.

Lemma last_leg_completed : last_leg (IncCompleted (Ret (Return tt))).
Proof. apply last_completed, quiet_ret. Qed.

Lemma last_leg_failed (key message : string) :
  last_leg (IncFailed (SetError key message (Ret (Return tt)))).
Proof. apply last_failed, quiet_error, quiet_ret. Qed.

(** Every path through [migrateFile] ends by moving one counter, after at
    most the existence check and the transfer request. *)
Lemma migrateFile_startable (r2Client : bool) (path : string) :
  startable (migrateFile r2Client path).
Proof.
  unfold migrateFile.
  destruct (shouldSkipPath path); [left; apply last_leg_completed|].
  destruct r2Client.
  - right. cbn. intros [|e].
    + left. apply last_leg_completed.
    + cbn. destruct (instanceofError e && _) eqn:He; cbn.
      * left. apply last_leg_failed.
      * right.
        intros [[name msg|]|statusText [errorText|[name msg|]]|[name msg|]|[] error];
          cbn; repeat (case_match; cbn);
          first [apply last_leg_completed | apply last_leg_failed].
  - left. cbn. apply last_leg_failed.
Qed.

Lemma unsettled_zero_lookup (ws : list task) (i : nat) (t : task) :
  unsettled ws = 0 -> ws !! i = Some t -> owing t = 0.
Proof.
  revert i. induction ws as [|w ws IH]; intros i Hu Hl; [done|].
  simpl in Hu. destruct i as [|i]; simpl in Hl.
  - injection Hl as ->. lia.
  - apply (IH i); [lia|done].
Qed.

Lemma unsettled_insert (ws : list task) (i : nat) (t t' : task) :
  ws !! i = Some t ->
  unsettled (<[i := t']> ws) + owing t = unsettled ws + owing t'.
Proof.
  revert i. induction ws as [|w ws IH]; intros i Hl; [done|].
  destruct i as [|i]; simpl in *.
  - injection Hl as ->. lia.
  - specialize (IH i Hl). lia.
Qed.

Lemma ranks_insert (ws : list task) (i : nat) (t t' : task) :
  ws !! i = Some t ->
  ranks (<[i := t']> ws) + rank t = ranks ws + rank t'.
Proof.
  revert i. induction ws as [|w ws IH]; intros i Hl; [done|].
  destruct i as [|i]; simpl in *.
  - injection Hl as ->. lia.
  - specialize (IH i Hl). lia.
Qed.

Lemma all_fulfilled (ws : list task) :
  forallb fulfilled ws = true -> unsettled ws = 0 /\ ranks ws = 0.
Proof.
  induction ws as [|w ws IH]; [done|].
  simpl. intros [Hw Hws]%andb_true_iff.
  destruct (IH Hws) as [-> ->]. unfold owing. rewrite Hw.
  by destruct w as [[]| | | | |].
Qed.

Lemma not_all_fulfilled (ws : list task) :
  forallb fulfilled ws = false ->
  exists i t, ws !! i = Some t /\ fulfilled t = false.
Proof.
  induction ws as [|w ws IH]; [done|].
  simpl. intros [Hw|Hws]%andb_false_iff.
  - by exists 0, w.
  - destruct (IH Hws) as (i & t & Hl & Ht). by exists (S i), t.
Qed.

(** [Promise.all] never sees a rejected promise. *)
Lemma sound_never_rejected (ws : list task) :
  Forall sound ws -> existsb rejected ws = false.
Proof.
  induction 1 as [|w ws Hw _ IH]; [done|].
  simpl. rewrite IH, orb_false_r.
  destruct w as [[]| | | | |]; try done.
Qed.

Lemma startBatch_accounted (r2Client : bool)
    (batch : list Enumerator.MigrationFile) (p : MigrationProgress) :
  exists p' ts cs,
    startBatch r2Client batch p = (p', ts, cs) /\
    Forall sound ts /\ ranks ts <= 2 * length batch /\
    total p' = total p /\ inProgress p' = inProgress p /\
    completed p' + failed p' + unsettled ts
      = completed p + failed p + length batch.
Proof.
  revert p. induction batch as [|file rest IH]; intros p; simpl.
  - exists p, [], []. repeat split; auto.
  - destruct (advance_startable _ p
                (migrateFile_startable r2Client (Enumerator.path file)))
      as (p1 & t & -> & Ht & Hr & Htot & Hin & Hc).
    destruct (IH p1) as (p2 & ts & cs & -> & Hts & Hrs & Htot2 & Hin2 & Hc2).
    exists p2, (t :: ts), (issued t ++ cs)%list.
    split; [done|]. split; [by apply Forall_cons|].
    simpl. repeat split; try congruence; lia.
Qed.

(** A task of the window that goes on after an answer. *)
Lemma resumed_accounted (n : nat) (s : state) (i : nat) (t0 t t' : task)
    (p' : MigrationProgress) :
  accounted n s ->
  window s !! i = Some t0 ->
  owing t0 = 1 ->
  advance t (progress s) = (p', t') ->
  settles_one (progress s) p' t' ->
  rank t' < rank t0 ->
  accounted n (resumed s i t) /\ measure (resumed s i t) < measure s.
Proof.
  intros (Htot & Hsound & Hsum & Hdone) Hl Ho Hadv (Ht' & _ & Htot' & Hin' & Hc) Hrank.
  unfold resumed. rewrite Hadv.
  pose proof (unsettled_insert (window s) i t0 t' Hl) as Hu.
  pose proof (ranks_insert (window s) i t0 t' Hl) as Hr.
  split.
  - unfold accounted. simpl.
    split; [congruence|]. split; [by apply Forall_insert|].
    split; [lia|].
    rewrite Hin'. intros Hfalse. destruct (Hdone Hfalse) as [Hz _].
    pose proof (unsettled_zero_lookup _ _ _ Hz Hl). lia.
  - unfold measure. simpl. rewrite Hin'. lia.
Qed.

Lemma step_accounted (n : nat) (r2Client : bool) (ev : event) (s s' : state) :
  accounted n s ->
  step r2Client ev s = Some s' ->
  accounted n s' /\ measure s' < measure s.
Proof.
  intros Hacc. pose proof Hacc as (Htot & Hsound & Hsum & Hdone).
  destruct ev as [i a|i a|]; simpl.
  - destruct (window s !! i) as [[| | | |key k|]|] eqn:Hl; try done.
    intros [= <-].
    pose proof (Forall_lookup_1 _ _ _ _ Hsound Hl a) as Hk.
    destruct (advance_resumable _ (progress s) Hk) as (p' & t' & Hadv & Hone).
    apply (resumed_accounted n s i _ _ t' p' Hacc Hl); auto.
    destruct Hone as (_ & Hr & _). simpl. lia.
  - destruct (window s !! i) as [[| | | | |filePath k]|] eqn:Hl; try done.
    intros [= <-].
    pose proof (Forall_lookup_1 _ _ _ _ Hsound Hl a) as Hk.
    destruct (advance_last_leg _ (progress s) Hk) as (p' & Hadv & Ht & Hi & Hc).
    apply (resumed_accounted n s i _ _ (Ret (Return tt)) p' Hacc Hl); auto.
    unfold settles_one, owing. cbn. intuition lia.
  - destruct (inProgress (progress s)) eqn:Hin; [|done]. simpl.
    rewrite (sound_never_rejected _ Hsound).
    destruct (forallb fulfilled (window s)) eqn:Hall; [|done].
    destruct (all_fulfilled _ Hall) as [Hu Hr].
    destruct (pending s) as [|file rest] eqn:Hp.
    + intros [= <-]. unfold accounted, measure, finish. simpl.
      rewrite Hp in *. simpl in *. rewrite Hin.
      repeat split; auto; lia.
    + rewrite <- Hp in Hsum |- *.
      destruct (startBatch_accounted r2Client (take batchSize (pending s))
                  (progress s))
        as (p' & ts & cs & -> & Hts & Hrs & Htot' & Hin' & Hc).
      intros [= <-]. unfold accounted, measure. simpl.
      pose proof (length_take (pending s) batchSize) as Htake.
      pose proof (length_drop (pending s) batchSize) as Hdrop.
      assert (0 < length (take batchSize (pending s))) as Hpos.
      { rewrite Hp. simpl. lia. }
      rewrite Hin', Hin.
      repeat split; auto; try congruence; try lia.
Qed.

(** A run that is not over can always go on. *)
Lemma accounted_not_stuck (n : nat) (r2Client : bool) (s : state) :
  accounted n s ->
  inProgress (progress s) = true ->
  exists ev s', step r2Client ev s = Some s'.
Proof.
  intros (Htot & Hsound & Hsum & Hdone) Hin.
  destruct (forallb fulfilled (window s)) eqn:Hall.
  - exists Join. simpl.
    rewrite Hin, (sound_never_rejected _ Hsound), Hall. simpl.
    destruct (pending s); [by eexists|].
    by destruct (startBatch _ _ _) as [[p ts] cs]; eexists.
  - destruct (not_all_fulfilled _ Hall) as (i & t & Hl & Ht).
    pose proof (Forall_lookup_1 _ _ _ _ Hsound Hl) as Hs.
    destruct t as [r| | | |key k|filePath k]; try done.
    + simpl in Hs. by subst r.
    + exists (HeadAnswer i HeadResolves). simpl. rewrite Hl. by eexists.
    + exists (FetchAnswer i (FetchRejects OtherValue)). simpl. rewrite Hl.
      by eexists.
Qed.

Lemma run_accounted (n : nat) (r2Client : bool) (evs : list event) :
  forall s s',
    accounted n s ->
    run r2Client evs s = Some s' ->
    accounted n s' /\ measure s' + length evs <= measure s.
Proof.
  induction evs as [|ev evs IH]; intros s s' Hacc; simpl.
  - intros [= <-]. split; [done|lia].
  - destruct (step r2Client ev s) as [s1|] eqn:Hstep; [|done].
    destruct (step_accounted n r2Client ev s s1 Hacc Hstep) as [Hacc1 Hlt].
    intros Hrun. destruct (IH s1 s' Hacc1 Hrun) as [Hacc' Hle].
    split; [done|lia].
Qed.

Lemma migrateFiles_accounted (r2Client : bool) (current : MigrationProgress)
    (files : list Enumerator.MigrationFile) (s0 : state) :
  migrateFiles r2Client current files = Return s0 ->
  accounted (length files) s0 /\ measure s0 = 3 * length files + 1.
Proof.
  unfold migrateFiles.
  destruct (inProgress current); [done|].
  destruct r2Client; [|done]. simpl.
  intros [= <-]. unfold accounted, measure. simpl.
  repeat split; auto; try lia.
Qed.

(** One call of a method that is on its last leg. *)
Lemma exec_quiet (w : world) (t : task) (p : MigrationProgress) :
  quiet t ->
  exists p', exec w t p = (Return tt, p', []) /\
             total p' = total p /\ inProgress p' = inProgress p /\
             completed p' = completed p /\ failed p' = failed p.
Proof.
  intros H. revert p. induction H as [|key message k _ IH]; intros p; simpl.
  - by exists p.
  - destruct (IH (setError key message p)) as (p' & -> & ? & ? & ? & ?).
    by exists p'.
Qed.

Lemma exec_last_leg (w : world) (t : task) (p : MigrationProgress) :
  last_leg t ->
  exists p', exec w t p = (Return tt, p', []) /\ one_counter_up p p'.
Proof.
  unfold one_counter_up.
  intros H. revert p. induction H as [k Hk|k Hk|key message k _ IH]; intros p; simpl.
  - destruct (exec_quiet w k (incCompleted p) Hk) as (p' & -> & ? & ? & ? & ?).
    exists p'. simpl in *. intuition.
  - destruct (exec_quiet w k (incFailed p) Hk) as (p' & -> & ? & ? & ? & ?).
    exists p'. simpl in *. intuition.
  - destruct (IH (setError key message p)) as (p' & -> & ? & ? & ?).
    by exists p'.
Qed.

(** [migrateFile] never throws, and moves exactly one counter by one. *)
Lemma migrateFile_one_counter (w : world) (r2Client : bool) (path : string)
    (p : MigrationProgress) :
  exists p' cs,
    exec w (migrateFile r2Client path) p = (Return tt, p', cs) /\
    one_counter_up p p'.
Proof.
  destruct (migrateFile_startable r2Client path) as [H|H].
  - destruct (exec_last_leg w _ p H) as (p' & Hex & Hone). by exists p', [].
  - destruct (migrateFile r2Client path) as [| | | |key k|]; try done.
    simpl. destruct (H (headObject w key)) as [Hk|Hk].
    + destruct (exec_last_leg w _ p Hk) as (p' & -> & Hone).
      by exists p', [HeadObject key].
    + destruct (k (headObject w key)) as [| | | | |filePath k']; try done.
      simpl.
      destruct (exec_last_leg w _ p (Hk (postMigrate w filePath)))
        as (p' & -> & Hone).
      by exists p', [HeadObject key; PostMigrate filePath].
Qed.

(** C1.  In every state that a run of [migrateFiles] over [files] can
    reach, under every interleaving of the answers: [total] is the number of
    files; [completed + failed <= total]; once [inProgress] is false,
    [completed + failed = total]; while it is true, the files not counted
    yet are exactly those still waiting in the window or in a later batch,
    and the run can go on; a run has at most [3 * total + 1] events.  And
    one call of [migrateFile] returns normally after moving exactly one of
    the two counters by one. *)
Theorem migrateFiles_progress_accounting (r2Client : bool)
    (current : MigrationProgress) (files : list Enumerator.MigrationFile)
    (s0 : state) (evs : list event) (s : state) :
  migrateFiles r2Client current files = Return s0 ->
  run r2Client evs s0 = Some s ->
  total (progress s) = length files /\
  completed (progress s) + failed (progress s) <= total (progress s) /\
  (inProgress (progress s) = false ->
   completed (progress s) + failed (progress s) = total (progress s)) /\
  (inProgress (progress s) = true ->
   completed (progress s) + failed (progress s)
     + unsettled (window s) + length (pending s) = total (progress s) /\
   exists ev s', step r2Client ev s = Some s') /\
  length evs <= 3 * length files + 1 /\
  (forall w path p,
      exists p' cs,
        exec w (migrateFile r2Client path) p = (Return tt, p', cs) /\
        one_counter_up p p').
Proof.
  intros Hstart Hrun.
  destruct (migrateFiles_accounted _ _ _ _ Hstart) as [Hacc0 Hm0].
  destruct (run_accounted _ _ _ _ _ Hacc0 Hrun) as [Hacc Hle].
  pose proof Hacc as (Htot & Hsound & Hsum & Hdone).
  split; [done|]. split; [lia|]. split.
  { intros Hfalse. destruct (Hdone Hfalse) as [Hu Hp]. rewrite Hp, Hu in Hsum.
    simpl in Hsum. lia. }
  split.
  { intros Htrue. split; [lia|]. by apply (accounted_not_stuck (length files)). }
  split; [lia|].
  intros w path p. apply migrateFile_one_counter.
Qed.

(** C1 on the run over seven files. *)
Lemma migrateFiles_progress_witness :
  migrateFiles true ServiceSamples.idle ServiceSamples.seven_files
    = Return RunSamples.seven_start /\
  run true RunSamples.seven_events RunSamples.seven_start
    = Some RunSamples.seven_final /\
  completed (progress RunSamples.seven_final)
    + failed (progress RunSamples.seven_final) = 7.
Proof.
  assert (run true RunSamples.seven_events RunSamples.seven_start
          = Some RunSamples.seven_final) as Hrun by (vm_compute; reflexivity).
  split; [reflexivity|]. split; [exact Hrun|].
  exact (proj1 (proj2 (proj2
           (migrateFiles_progress_accounting true ServiceSamples.idle
              ServiceSamples.seven_files RunSamples.seven_start
              RunSamples.seven_events RunSamples.seven_final eq_refl Hrun)))
           eq_refl).
Defined.

End Scheduler.

(** ** Existence check *)

Section ExistenceCheck.
Import Service.

(** What [fileExistsInR2] does, case by case. *)
Lemma fileExistsInR2_exec (w : world) (r2Client : bool) (path : string)
    (p : MigrationProgress) :
  exec w (fileExistsInR2 r2Client path) p =
  if r2Client then
    ( match headObject w (normalizePath path) with
      | HeadResolves => Return true
      | HeadRejects e =>
          if instanceofError e && includes (message_or "" e) "not initialized"
          then Throw e
          else Return false
      end,
      p, [HeadObject (normalizePath path)] )
  else (Throw (Error not_initialized), p, []).
Proof.
  unfold fileExistsInR2. destruct r2Client; [|reflexivity].
  cbn. destruct (headObject w (normalizePath path)) as [|e]; [reflexivity|].
  cbn. by destruct (instanceofError e && _).
Qed.

(** C2, as the code has it.  Without a destination client the check throws
    the precondition error and sends nothing.  With a client it sends one
    HEAD request for the normalised key and returns [true] when the request
    succeeds; when the request fails it returns [false] for every failure,
    not-found or not, except that an [Error] whose message contains
    [not initialized] is thrown again. *)
Theorem fileExistsInR2_outcomes (w : world) (path : string)
    (p : MigrationProgress) :
  exec w (fileExistsInR2 false path) p = (Throw (Error not_initialized), p, []) /\
  (exec w (fileExistsInR2 true path) p).2 = [HeadObject (normalizePath path)] /\
  (exec w (fileExistsInR2 true path) p).1.2 = p /\
  (exec w (fileExistsInR2 true path) p).1.1 =
    match headObject w (normalizePath path) with
    | HeadResolves => Return true
    | HeadRejects e =>
        if instanceofError e && includes (message_or "" e) "not initialized"
        then Throw e
        else Return false
    end /\
  (reports_not_found (headObject w (normalizePath path)) = true ->
   (exec w (fileExistsInR2 true path) p).1.1 = Return false \/
   exists e, (exec w (fileExistsInR2 true path) p).1.1 = Throw e /\
             includes (message_or "" e) "not initialized" = true).
Proof.
  rewrite !fileExistsInR2_exec. simpl.
  repeat split.
  destruct (headObject w (normalizePath path)) as [|[name msg|]]; try done.
  intros _. simpl.
  destruct (includes msg "not initialized") eqn:Hi; [right|by left].
  by exists (ErrorObject name msg).
Qed.

(** C2 on the empty destination. *)
Lemma fileExistsInR2_outcomes_witness :
  reports_not_found
    (headObject ServiceSamples.empty_destination (normalizePath "/images//a.png"))
    = true /\
  (exec ServiceSamples.empty_destination (fileExistsInR2 true "/images//a.png")
        ServiceSamples.idle).1.1 = Return false.
Proof.
  split; [reflexivity|].
  destruct (proj2 (proj2 (proj2 (proj2
              (fileExistsInR2_outcomes ServiceSamples.empty_destination
                 "/images//a.png" ServiceSamples.idle)))) eq_refl)
    as [H|(e & H & _)]; [exact H|discriminate H].
Defined.

(** C2 as stated fails: when the network is down the destination reports
    nothing, and certainly not that the key is missing, yet the check
    returns [false] and no error is surfaced. *)
Lemma fileExistsInR2_network_failure_counterexample :
  headObject ServiceSamples.offline (normalizePath "a.png")
    = HeadRejects (ErrorObject "TypeError" "Failed to fetch") /\
  reports_not_found (headObject ServiceSamples.offline (normalizePath "a.png"))
    = false /\
  (exec ServiceSamples.offline (fileExistsInR2 true "a.png")
        ServiceSamples.idle).1.1 = Return false /\
  ~ (forall w key,
        (exec w (fileExistsInR2 true key) ServiceSamples.idle).1.1 = Return false <->
        reports_not_found (headObject w (normalizePath key)) = true).
Proof.
  split; [reflexivity|]. split; [reflexivity|]. split; [reflexivity|].
  intros H. specialize (H ServiceSamples.offline "a.png").
  destruct H as [H _]. specialize (H eq_refl). discriminate H.
Qed.

(** ** Existence, then skip *)



End ExistenceCheck.

(** ** Segments of a path *)

Section Segments.

Lemma split_nonempty (sep : ascii) (s : string) : split sep s <> [].
Proof.
  destruct s as [|c s]; simpl; [done|].
  destruct (Ascii.eqb c sep); [done|].
  by destruct (split sep s).
Qed.

Lemma split_cons_other (sep c : ascii) (s : string) :
  Ascii.eqb c sep = false ->
  exists piece pieces,
    split sep s = piece :: pieces /\
    split sep (String c s) = String c piece :: pieces.
Proof.
  intros Hc. simpl. rewrite Hc.
  destruct (split sep s) as [|piece pieces] eqn:Hs.
  - by destruct (split_nonempty sep s).
  - by exists piece, pieces.
Qed.

(** Joining the pieces with the separator gives the string back. *)
Lemma join_split (sep : ascii) (s : string) :
  join (String sep "") (split sep s) = s.
Proof.
  induction s as [|c s IH]; [done|].
  destruct (Ascii.eqb c sep) eqn:Hc.
  - simpl. rewrite Hc. apply Ascii.eqb_eq in Hc as ->.
    destruct (split sep s) as [|piece pieces] eqn:Hs.
    + by destruct (split_nonempty sep s).
    + simpl in *. by rewrite IH.
  - destruct (split_cons_other sep c s Hc) as (piece & pieces & Hs & ->).
    rewrite Hs in IH. rewrite <- IH. by destruct pieces.
Qed.

Lemma split_app_sep (sep : ascii) (a b : string) :
  split sep (a +:+ String sep b) = (split sep a ++ split sep b)%list.
Proof.
  induction a as [|c a IH].
  - simpl. by rewrite Ascii.eqb_refl.
  - change (String c a +:+ String sep b) with (String c (a +:+ String sep b)).
    destruct (Ascii.eqb c sep) eqn:Hc.
    + simpl. rewrite Hc. by rewrite IH.
    + destruct (split_cons_other sep c a Hc) as (piece & pieces & Hs & ->).
      simpl. rewrite Hc, IH, Hs. done.
Qed.

(** A string without the separator is one piece. *)
Lemma split_one_piece (sep : ascii) (s : string) :
  includes s (String sep "") = false -> split sep s = [s].
Proof.
  induction s as [|c s IH]; [done|].
  simpl. rewrite andb_true_r. intros [Hc Hs]%orb_false_iff.
  rewrite Hc. by rewrite (IH Hs).
Qed.

Lemma findIndex_absent (x : string) (parts : list string) :
  ~ In x parts -> findIndex x parts = None.
Proof.
  induction parts as [|p parts IH]; simpl; [done|].
  intros Hn. destruct (String.eqb_spec p x) as [->|_]; [tauto|].
  rewrite IH; [done|tauto].
Qed.

Lemma findIndex_first (x : string) (before after : list string) :
  ~ In x before ->
  findIndex x (before ++ x :: after) = Some (length before).
Proof.
  induction before as [|p before IH]; simpl; intros Hn.
  - by rewrite String.eqb_refl.
  - destruct (String.eqb_spec p x) as [->|_]; [tauto|].
    rewrite IH; [done|tauto].
Qed.

Lemma drop_past (x : string) (before after : list string) :
  drop (length before + 1) (before ++ x :: after) = after.
Proof. induction before as [|p before IH]; simpl; [done|exact IH]. Qed.

End Segments.

(** ** Key extraction *)

Section KeyExtraction.
Import TableMigration.

Variable URL_pathname : string -> option string.
Variable bucket : string.

Lemma extractKey_after_bucket (imageUrl pathname : string)
    (before after : list string) :
  URL_pathname imageUrl = Some pathname ->
  split "/" pathname = (before ++ bucket :: after)%list ->
  ~ In bucket before ->
  extractKey URL_pathname bucket imageUrl =
    match after with
    | [] => bucket
    | _ => join "/" after
    end.
Proof.
  intros Hurl Hsplit Hn. unfold extractKey. rewrite Hurl, Hsplit.
  rewrite (findIndex_first _ _ _ Hn), drop_past.
  rewrite length_app. simpl.
  destruct after as [|a after]; simpl length.
  - destruct (Nat.ltb_spec (length before) (length before + 1 - 1)); [lia|].
    by rewrite last_snoc.
  - destruct (Nat.ltb_spec (length before)
                (length before + S (S (length after)) - 1)); [done|lia].
Qed.

Lemma extractKey_without_bucket (imageUrl pathname : string) :
  URL_pathname imageUrl = Some pathname ->
  ~ In bucket (split "/" pathname) ->
  exists before,
    split "/" pathname = (before ++ [extractKey URL_pathname bucket imageUrl])%list.
Proof.
  intros Hurl Hn. unfold extractKey. rewrite Hurl, (findIndex_absent _ _ Hn).
  destruct (split "/" pathname) as [|p parts] eqn:Hs using rev_ind.
  - by destruct (split_nonempty "/" pathname).
  - exists parts. by rewrite last_snoc.
Qed.

Lemma extractKey_key_after_bucket (imageUrl pre key : string) :
  URL_pathname imageUrl = Some (pre +:+ "/" +:+ bucket +:+ "/" +:+ key) ->
  includes bucket "/" = false ->
  ~ In bucket (split "/" pre) ->
  extractKey URL_pathname bucket imageUrl = key.
Proof.
  intros Hurl Hb Hn.
  rewrite (extractKey_after_bucket imageUrl _ (split "/" pre) (split "/" key) Hurl).
  - destruct (split "/" key) eqn:Hk; [by destruct (split_nonempty "/" key)|].
    rewrite <- Hk. apply join_split.
  - change (pre +:+ "/" +:+ bucket +:+ "/" +:+ key)
      with (pre +:+ String "/" (bucket +:+ String "/" key)).
    by rewrite !split_app_sep, (split_one_piece _ _ Hb).
  - exact Hn.
Qed.

End KeyExtraction.

Section KeyExtractionClaim.
Import TableMigration.

(** C3, as the code has it.  The extraction is a total function.  When the
    input does not parse as a URL the input itself is the key.  When it
    parses, the path is split at the slashes and the first segment equal to
    the bucket name is looked for: if it is followed by at least one segment,
    the key is the join of the segments that follow it (so the key is what
    comes after [/bucket/] in the path); if it is the last segment, or if no
    segment equals the bucket name, the key is the last segment.  With the
    parser's answer for the URL of the example, the key is [images/a.png]. *)
Theorem extractKey_cases (URL_pathname : string -> option string)
    (bucket imageUrl : string) :
  (URL_pathname imageUrl = None ->
   extractKey URL_pathname bucket imageUrl = imageUrl) /\
  (forall pathname before after,
      URL_pathname imageUrl = Some pathname ->
      split "/" pathname = (before ++ bucket :: after)%list ->
      ~ In bucket before ->
      extractKey URL_pathname bucket imageUrl =
        match after with
        | [] => bucket
        | _ => join "/" after
        end) /\
  (forall pre key,
      URL_pathname imageUrl = Some (pre +:+ "/" +:+ bucket +:+ "/" +:+ key) ->
      includes bucket "/" = false ->
      ~ In bucket (split "/" pre) ->
      extractKey URL_pathname bucket imageUrl = key) /\
  (forall pathname,
      URL_pathname imageUrl = Some pathname ->
      ~ In bucket (split "/" pathname) ->
      exists before,
        split "/" pathname
        = (before ++ [extractKey URL_pathname bucket imageUrl])%list) /\
  (URL_pathname "https://proj.supabase.co/storage/v1/object/public/mybucket/images/a.png"
     = Some "/storage/v1/object/public/mybucket/images/a.png" ->
   extractKey URL_pathname "mybucket"
     "https://proj.supabase.co/storage/v1/object/public/mybucket/images/a.png"
     = "images/a.png") /\
  (URL_pathname "images/a.png" = None ->
   extractKey URL_pathname bucket "images/a.png" = "images/a.png").
Proof.
  split; [|split; [|split; [|split; [|split]]]].
  - intros H. unfold extractKey. by rewrite H.
  - intros pathname before after. apply extractKey_after_bucket.
  - intros pre key. apply extractKey_key_after_bucket.
  - intros pathname. apply extractKey_without_bucket.
  - intros H. unfold extractKey. rewrite H. reflexivity.
  - intros H. unfold extractKey. by rewrite H.
Qed.

(** C3 with the parser's answers for the URL of the example and for a
    string that is no URL. *)
Lemma extractKey_cases_witness :
  extractKey TableSamples.sample_URL_pathname "mybucket"
    "https://proj.supabase.co/storage/v1/object/public/mybucket/images/a.png"
    = "images/a.png" /\
  extractKey TableSamples.sample_URL_pathname "mybucket" "images/a.png"
    = "images/a.png".
Proof.
  split.
  - exact (proj1 (proj2 (proj2 (proj2 (proj2
             (extractKey_cases TableSamples.sample_URL_pathname "mybucket"
                "images/a.png")))))
             eq_refl).
  - exact (proj1 (extractKey_cases TableSamples.sample_URL_pathname "mybucket"
                    "images/a.png") eq_refl).
Defined.

(** C3 as stated fails: in the URL of the bucket itself the segment equal to
    the bucket name is followed by no segment, the join of the following
    segments is the empty string, and the code returns the bucket name. *)
Lemma extractKey_bucket_last_counterexample :
  TableSamples.sample_URL_pathname
    "https://proj.supabase.co/storage/v1/object/public/mybucket"
    = Some "/storage/v1/object/public/mybucket" /\
  split "/" "/storage/v1/object/public/mybucket"
    = ([ ""; "storage"; "v1"; "object"; "public" ] ++ "mybucket" :: [])%list /\
  join "/" [] = "" /\
  extractKey TableSamples.sample_URL_pathname "mybucket"
    "https://proj.supabase.co/storage/v1/object/public/mybucket" = "mybucket" /\
  ~ (forall imageUrl pathname before after,
        TableSamples.sample_URL_pathname imageUrl = Some pathname ->
        split "/" pathname = (before ++ "mybucket" :: after)%list ->
        extractKey TableSamples.sample_URL_pathname "mybucket" imageUrl
          = join "/" after).
Proof.
  repeat (split; [reflexivity|]).
  intros H.
  specialize (H "https://proj.supabase.co/storage/v1/object/public/mybucket"
                "/storage/v1/object/public/mybucket"
                [ ""; "storage"; "v1"; "object"; "public" ] [] eq_refl eq_refl).
  discriminate H.
Qed.

End KeyExtractionClaim.

(** ** Reference update *)

Section ReferenceUpdate.
Import TableMigration.

Variable URL_pathname : string -> option string.
Variable migrate : string -> api_answer.
Variable update : string -> string -> string -> string -> update_answer.
Variable bucket : string.
Variable cloudflareConfig : Transfer.CloudflareConfig.
Variable table column : string.



End ReferenceUpdate.

Section ReferenceUpdateClaim.
Import TableMigration.




End ReferenceUpdateClaim.

(** ** Transfer *)

Section TransferClaim.
Import ContentType Transfer.

Variable download : string -> string -> download_answer.
Variable put : string -> string -> put_answer.
Variable is_url : string -> bool.
Variable zod_message : list string -> string.


(** Whatever the request, a handler that answers with a failure leaves the
    destination as it was. *)
Lemma POST_failure_no_write (request : option body)
    (destination : bucket_contents) (status : nat) (error : string)
    (destination' : bucket_contents) (calls : list call) :
  POST download put is_url zod_message request destination
    = (status, Failure error, destination', calls) ->
  destination' = destination.
Proof.
  unfold POST, downloadAndUpload.
  repeat case_match; intros [= <- <- <- <-]; try done.
Qed.

End TransferClaim.

Section TransferTheorem.
Import ContentType Transfer.



(** The transfer that goes through: the object is put under the normalised
    key with the content type of its extension. *)
Example transfer_success :
  POST TransferSamples.one_object TransferSamples.put_accepts
       TransferSamples.any_url TransferSamples.issues_joined
       (Some {| supabaseConfig := Some TransferSamples.source_config;
                cloudflareConfig := Some TableSamples.destination_config;
                filePath := "/a.jpg" |})
       ∅
  = ( 200,
      Success "https://target.acc.r2.cloudflarestorage.com/a.jpg"
              "Successfully migrated a.jpg",
      {[ "a.jpg" := ("0123456789", VString "image/jpeg") ]},
      [ Download "mybucket" "a.jpg";
        PutObject "target" "a.jpg" "0123456789" (VString "image/jpeg") ] ).
Proof. vm_compute. reflexivity. Qed.

End TransferTheorem.

(** ** End to end *)

Section EndToEnd.
Import Service.

(** Two files, none at the destination: both are transferred. *)
Example two_files_migrated :
  match migrateFiles true ServiceSamples.idle ServiceSamples.two_files with
  | Return s0 =>
      progress <$>
        run true [ Join;
                   HeadAnswer 0 RunSamples.not_found;
                   HeadAnswer 1 RunSamples.not_found;
                   FetchAnswer 1 (ResponseOkJson true "");
                   FetchAnswer 0 (ResponseOkJson true "");
                   Join ] s0
  | Throw _ => None
  end
  = Some {| total := 2; completed := 2; failed := 0; inProgress := false;
            errors := ∅ |}.
Proof. vm_compute. reflexivity. Qed.

(** One file whose upload fails: it counts as failed, with its message. *)
Example failed_upload_recorded :
  (exec ServiceSamples.empty_destination (migrateFile true "c.pdf")
        {| total := 1; completed := 0; failed := 0; inProgress := true;
           errors := ∅ |}).1
  = ( Return tt,
      {| total := 1; completed := 0; failed := 1; inProgress := true;
         errors := {[ "c.pdf" := "Failed to upload file to R2: upstream failure" ]} |} ).
Proof. vm_compute. reflexivity. Qed.

(** A second call while a run is in progress is refused, and so is a call
    without a destination client. *)
Example migrateFiles_guards :
  migrateFiles true (setInProgress true ServiceSamples.idle) ServiceSamples.two_files
    = Throw (Error "Migration already in progress") /\
  migrateFiles false ServiceSamples.idle ServiceSamples.two_files
    = Throw (Error not_initialized).
Proof. by split. Qed.

(** Pieces of paths. *)
Example split_examples :
  split "." "x/y.PNG" = [ "x/y"; "PNG" ] /\
  split "/" "/a//b" = [ ""; "a"; ""; "b" ] /\
  split "." "" = [ "" ] /\
  join "/" [ "images"; "a.png" ] = "images/a.png".
Proof. by repeat split. Qed.

End EndToEnd.

(** * Further properties *)

(** ** Skip filter, exactly *)

Section SkipFilterExact.

Lemma string_app_assoc (a b c : string) : (a +:+ b) +:+ c = a +:+ (b +:+ c).
Proof.
  induction a as [|x a IH]; [done|].
  change (String x ((a +:+ b) +:+ c) = String x (a +:+ b +:+ c)).
  by rewrite IH.
Qed.

(** X1.  A path is skipped exactly when it contains one of eight markers:
    the patterns [/example] and [/examples/] add nothing to [example]. *)
Theorem shouldSkipPath_exactly (path : string) :
  shouldSkipPath path = true <->
  exists marker pre post,
    In marker [ ".emptyFolderPlaceholder"; "test-"; "mock-"; "example";
                "sample-"; "/sample/"; "/test/"; "/testing/" ] /\
    path = pre +:+ marker +:+ post.
Proof.
  split.
  - unfold shouldSkipPath. intros (pattern & Hin & Hinc)%existsb_exists.
    destruct (includes_inv _ _ Hinc) as (pre & post & ->).
    simpl in Hin.
    destruct Hin as [<-|[<-|[<-|[<-|[<-|[<-|[<-|[<-|[<-|[<-|[]]]]]]]]]]].
    + exists ".emptyFolderPlaceholder", pre, post. simpl. tauto.
    + exists "test-", pre, post. simpl. tauto.
    + exists "mock-", pre, post. simpl. tauto.
    + exists "example", pre, post. simpl. tauto.
    + exists "example", (pre +:+ "/"), post. split; [simpl; tauto|].
      by rewrite string_app_assoc.
    + exists "example", (pre +:+ "/"), ("s/" +:+ post). split; [simpl; tauto|].
      by rewrite string_app_assoc.
    + exists "sample-", pre, post. simpl. tauto.
    + exists "/sample/", pre, post. simpl. tauto.
    + exists "/test/", pre, post. simpl. tauto.
    + exists "/testing/", pre, post. simpl. tauto.
  - intros (marker & pre & post & Hin & ->).
    apply shouldSkipPath_containing. simpl in *. tauto.
Qed.

End SkipFilterExact.

(** ** Source enumeration, further *)

Section EnumerationScope.
Import Enumerator.

Variable bucketName : string.
Variable list_ : string -> list_answer.

Lemma startsWith_refl_app (a tail : string) : startsWith (a +:+ tail) a = true.
Proof. apply startsWith_app. Qed.

Lemma startsWith_trans (s a b : string) :
  startsWith s a = true -> startsWith a b = true -> startsWith s b = true.
Proof.
  intros [r1 ->]%startsWith_inv [r2 ->]%startsWith_inv.
  rewrite string_app_assoc. apply startsWith_app.
Qed.

(** The replacement of slash runs keeps a prefix without adjacent
    slashes. *)
Lemma replace_slash_runs_keeps_prefix (np rest : string) :
  includes np "//" = false ->
  exists tail, replace_slash_runs (np +:+ rest) = np +:+ tail.
Proof.
  induction np as [|c np IH]; intros Hd.
  - by exists (replace_slash_runs rest).
  - change (String c np +:+ rest) with (String c (np +:+ rest)).
    rewrite includes_double_slash_cons in Hd.
    apply orb_false_iff in Hd as [Hhead Htail].
    destruct (IH Htail) as [tail Htl].
    rewrite replace_slash_runs_cons.
    destruct (is_slash c) eqn:Hc.
    + rewrite (is_slash_eq _ Hc) in *.
      change (startsWith np "/" = false) in Hhead.
      destruct np as [|c' np].
      * change ("" +:+ rest) with rest in *.
        destruct (startsWith rest "/") eqn:Hr.
        -- pose proof (startsWith_replace_slash_runs rest) as Hs.
           rewrite Hr in Hs.
           destruct (startsWith_inv _ _ Hs) as [r ->]. by exists r.
        -- by exists (replace_slash_runs rest).
      * change (String c' np +:+ rest) with (String c' (np +:+ rest)) in *.
        rewrite startsWith_slash_cons.
        rewrite startsWith_slash_cons in Hhead. rewrite Hhead.
        exists tail. by rewrite Htl.
    + exists tail. by rewrite Htl.
Qed.

Lemma normalizePath_under (np itemName : string) :
  includes np "//" = false ->
  startsWith np "/" = false ->
  startsWith (normalizePath (joinPath np itemName)) np = true.
Proof.
  intros Hd Hl. unfold joinPath.
  destruct (String.eqb_spec np "") as [->|Hne]; [by destruct (normalizePath _)|].
  unfold normalizePath.
  destruct (replace_slash_runs_keeps_prefix np ("/" +:+ itemName) Hd) as [tail ->].
  destruct np as [|c np]; [done|].
  change (String c np +:+ tail) with (String c (np +:+ tail)).
  rewrite startsWith_slash_cons. rewrite startsWith_slash_cons in Hl. rewrite Hl.
  apply (startsWith_app (String c np)).
Qed.

Lemma joinPath_under (np itemName : string) :
  startsWith (joinPath np itemName) np = true.
Proof.
  unfold joinPath. destruct (String.eqb_spec np "") as [->|_].
  - by destruct itemName.
  - apply startsWith_app.
Qed.

Lemma listItems_under (rec : string -> listing) (np : string) :
  includes np "//" = false ->
  startsWith np "/" = false ->
  (forall p calls files,
      rec p = (calls, Some (Return files)) ->
      Forall (fun f => startsWith (path f) (normalizePath p) = true) files) ->
  forall data files calls calls' files',
    Forall (fun f => startsWith (path f) np = true) files ->
    listItems rec np data files calls = (calls', Some (Return files')) ->
    Forall (fun f => startsWith (path f) np = true) files'.
Proof.
  intros Hd Hl Hrec data.
  induction data as [|item rest IH]; intros files calls calls' files' Hfiles; simpl.
  - intros [= _ <-]. exact Hfiles.
  - destruct (shouldSkipPath (joinPath np (name item))); [apply IH, Hfiles|].
    destruct (no_id item).
    + destruct (rec (joinPath np (name item)))
        as [subCalls [[subFiles|e]|]] eqn:Hsub; [|done|done].
      apply IH. apply Forall_app; split; [exact Hfiles|].
      eapply Forall_impl; [exact (Hrec _ _ _ Hsub)|].
      intros f Hf. simpl in Hf.
      exact (startsWith_trans _ _ _ Hf (normalizePath_under np (name item) Hd Hl)).
    + apply IH. apply Forall_app; split; [exact Hfiles|].
      apply Forall_cons; split; [|by apply Forall_nil].
      apply joinPath_under.
Qed.

(** X2.  The enumeration stays below its start: the path of every record
    that [listFiles] returns begins with the normalised start path. *)
Theorem listFiles_below_start (fuel : nat) (start : string)
    (calls : list string) (files : list MigrationFile) :
  listFiles bucketName list_ fuel start = (calls, Some (Return files)) ->
  Forall (fun f => startsWith (path f) (normalizePath start) = true) files.
Proof.
  revert start calls files.
  induction fuel as [|fuel IH]; intros start calls files; simpl; [done|].
  destruct (String.eqb bucketName ""); [done|].
  destruct (shouldSkipPath (normalizePath start)).
  { intros [= _ <-]. by apply Forall_nil. }
  destruct (list_ (normalizePath start)) as [en msg| |data].
  - by destruct (_ || _).
  - done.
  - apply (listItems_under _ _ (normalizePath_no_double start)
             (normalizePath_no_leading_slash start) IH).
    by apply Forall_nil.
Qed.



End EnumerationScope.

Section EnumerationScopeWitnesses.
Import Enumerator.

Lemma listFiles_below_start_witness :
  Forall (fun f => startsWith (path f) (normalizePath "/images/") = true)
         [ {| path := "images//a.png"; size := 0; lastModified := None;
              selected := Some true |} ].
Proof.
  apply (listFiles_below_start "media" MoreSamples.trailing_slash_list 1 "/images/"
           [ "images/" ]).
  reflexivity.
Defined.


End EnumerationScopeWitnesses.

(** ** One file, further *)

Section OneFile.
Import Service.


(** X5.  [migrateFile] returns normally in every world.  Either [completed]
    is one higher and [errors] is untouched, or [failed] is one higher and
    one entry is written to [errors], under the path as it was given (not
    its normal form). *)
Theorem migrateFile_error_entry (w : world) (r2Client : bool) (path : string)
    (p : MigrationProgress) :
  exists p' cs,
    exec w (migrateFile r2Client path) p = (Return tt, p', cs) /\
    total p' = total p /\ inProgress p' = inProgress p /\
    ((completed p' = S (completed p) /\ failed p' = failed p /\
      errors p' = errors p) \/
     (completed p' = completed p /\ failed p' = S (failed p) /\
      exists message, errors p' = assign path message (errors p))).
Proof.
  unfold migrateFile.
  destruct (shouldSkipPath path).
  { eexists _, _. split; [reflexivity|]. simpl. by intuition. }
  destruct r2Client.
  2:{ eexists _, _. split; [reflexivity|]. simpl. split; [done|]. split; [done|].
      right. by eauto. }
  cbn.
  destruct (headObject w _) as [|e]; cbn.
  { eexists _, _. split; [reflexivity|]. simpl. by intuition. }
  destruct (instanceofError e && _); cbn.
  { eexists _, _. split; [reflexivity|]. simpl. split; [done|]. split; [done|].
    right. by eauto. }
  destruct (postMigrate w _)
    as [[name msg|]|statusText [errorText|[name msg|]]|[name msg|]|[] error];
    cbn;
    repeat (match goal with
            | |- context [String.eqb ?a ?b] => destruct (String.eqb a b)
            end; cbn);
    (eexists _, _; split; [reflexivity|]; simpl; split; [done|]; split; [done|]);
    first [by left | right; by eauto].
Qed.

End OneFile.

(** ** Batches, further *)

Section Batches.
Import Service Bookkeeping.

Lemma startBatch_length (r2Client : bool)
    (batch : list Enumerator.MigrationFile) (p : MigrationProgress) :
  length (startBatch r2Client batch p).1.2 = length batch.
Proof.
  revert p. induction batch as [|file rest IH]; intros p; simpl; [done|].
  destruct (advance _ p) as [p1 t].
  specialize (IH p1). destruct (startBatch r2Client rest p1) as [[p2 ts] cs].
  simpl in *. by rewrite IH.
Qed.

Lemma unsettled_le_length (ts : list task) : unsettled ts <= length ts.
Proof.
  induction ts as [|t ts IH]; simpl; [done|].
  unfold owing. destruct (fulfilled t); lia.
Qed.

Lemma step_window_bound (r2Client : bool) (ev : event) (s s' : state) :
  step r2Client ev s = Some s' ->
  length (window s) <= batchSize ->
  length (window s') <= batchSize.
Proof.
  destruct ev as [i a|i a|]; simpl.
  - destruct (window s !! i) as [[| | | |key k|]|]; try done.
    intros [= <-]. unfold resumed. destruct (advance _ _) as [p t'].
    simpl. by rewrite length_insert.
  - destruct (window s !! i) as [[| | | | |filePath k]|]; try done.
    intros [= <-]. unfold resumed. destruct (advance _ _) as [p t'].
    simpl. by rewrite length_insert.
  - destruct (negb _); [done|].
    destruct (existsb _ _); [by intros [= <-]|].
    destruct (forallb _ _); [|done].
    destruct (pending s) as [|file rest] eqn:Hp; [by intros [= <-]|].
    rewrite <- Hp.
    pose proof (startBatch_length r2Client (take batchSize (pending s))
                  (progress s)) as Hlen.
    destruct (startBatch _ _ _) as [[p ts] cs]. simpl in Hlen.
    intros [= <-] _. simpl. rewrite Hlen, length_take. lia.
Qed.

(** X6.  The concurrency cap: in every state that a run of [migrateFiles]
    can reach, the window holds at most five promises, so that at most five
    files are being migrated at any time. *)
Theorem migrateFiles_window_bound (r2Client : bool)
    (current : MigrationProgress) (files : list Enumerator.MigrationFile)
    (s0 : state) (evs : list event) (s : state) :
  migrateFiles r2Client current files = Return s0 ->
  run r2Client evs s0 = Some s ->
  length (window s) <= 5 /\ unsettled (window s) <= 5.
Proof.
  intros Hstart Hrun.
  assert (length (window s0) <= batchSize) as H0.
  { unfold migrateFiles in Hstart.
    destruct (inProgress current); [done|]. destruct (negb r2Client); [done|].
    injection Hstart as <-. simpl. unfold batchSize. lia. }
  assert (length (window s) <= batchSize) as H.
  { clear Hstart. revert s0 H0 Hrun.
    induction evs as [|ev evs IH]; intros s0 H0; simpl.
    - by intros [= <-].
    - destruct (step r2Client ev s0) as [s1|] eqn:Hstep; [|done].
      apply IH. exact (step_window_bound _ _ _ _ Hstep H0). }
  pose proof (unsettled_le_length (window s)).
  unfold batchSize in H. lia.
Qed.

Lemma migrateFiles_window_bound_witness :
  length (window RunSamples.seven_final) <= 5 /\
  unsettled (window RunSamples.seven_final) <= 5.
Proof.
  apply (migrateFiles_window_bound true ServiceSamples.idle
           ServiceSamples.seven_files RunSamples.seven_start
           RunSamples.seven_events RunSamples.seven_final).
  - reflexivity.
  - vm_compute. reflexivity.
Defined.

End Batches.

(** ** The entries of [errors] *)

Section ErrorEntries.
Import Service Bookkeeping.

Lemma assign_is_Some (key message key' : string) (es : gmap string string) :
  is_Some (assign key message es !! key') -> key' = key \/ is_Some (es !! key').
Proof.
  unfold assign. destruct (String.eqb key "__proto__"); [by right|].
  destruct (decide (key = key')) as [->|Hne]; [by left|].
  rewrite lookup_insert_ne by done. by right.
Qed.

Lemma assign_size (key message : string) (es : gmap string string) :
  size (assign key message es) <= S (size es).
Proof.
  unfold assign. destruct (String.eqb key "__proto__"); [lia|].
  rewrite map_size_insert. destruct (es !! key); simpl; lia.
Qed.

Lemma advance_tidy (K : string -> Prop) (t : task) :
  tidy K t ->
  forall p, booked K p ->
            tidy K (advance t p).2 /\ booked K (advance t p).1.
Proof.
  induction 1 as [r|k _ IH|key message k Hkey _ IH|key k Hk _|filePath k Hk _];
    intros p Hp; simpl.
  - split; [apply tidy_ret|done].
  - apply IH. exact Hp.
  - apply IH. destruct Hp as [Hkeys Hsize]. split; simpl.
    + intros key' [->|Hold]%assign_is_Some; [done|by apply Hkeys].
    + pose proof (assign_size key message (errors p)). lia.
  - split; [by apply tidy_head|done].
  - split; [by apply tidy_post|done].
Qed.

Lemma migrateFile_tidy (K : string -> Prop) (r2Client : bool) (path : string) :
  K path -> tidy K (migrateFile r2Client path).
Proof.
  intros Hk. unfold migrateFile.
  destruct (shouldSkipPath path); [apply tidy_completed, tidy_ret|].
  destruct r2Client; [|by apply tidy_failed; [|apply tidy_ret]].
  cbn. apply tidy_head. intros [|e]; cbn.
  { apply tidy_completed, tidy_ret. }
  destruct (instanceofError e && _); cbn.
  { by apply tidy_failed; [|apply tidy_ret]. }
  apply tidy_post.
  intros [[name msg|]|statusText [errorText|[name msg|]]|[name msg|]|[] error];
    cbn;
    repeat (match goal with
            | |- context [String.eqb ?a ?b] => destruct (String.eqb a b)
            end; cbn);
    first [ apply tidy_completed, tidy_ret
          | by apply tidy_failed; [|apply tidy_ret] ].
Qed.

Lemma startBatch_tidy (K : string -> Prop) (r2Client : bool)
    (batch : list Enumerator.MigrationFile) :
  Forall (fun f => K (Enumerator.path f)) batch ->
  forall p, booked K p ->
            Forall (tidy K) (startBatch r2Client batch p).1.2 /\
            booked K (startBatch r2Client batch p).1.1.
Proof.
  induction 1 as [|file rest Hfile _ IH]; intros p Hp; simpl.
  - split; [by apply Forall_nil|done].
  - destruct (advance_tidy K _ (migrateFile_tidy K r2Client _ Hfile) p Hp)
      as [Ht Hp1].
    destruct (advance _ p) as [p1 t]. simpl in Ht, Hp1.
    destruct (IH p1 Hp1) as [Hts Hp2].
    destruct (startBatch r2Client rest p1) as [[p2 ts] cs]. simpl in *.
    split; [by apply Forall_cons|done].
Qed.

Lemma step_entries_kept (K : string -> Prop) (r2Client : bool) (ev : event)
    (s s' : state) :
  entries_kept K s -> step r2Client ev s = Some s' -> entries_kept K s'.
Proof.
  intros (Hp & Hw & Hpend).
  destruct ev as [i a|i a|]; simpl.
  - destruct (window s !! i) as [[| | | |key k|]|] eqn:Hl; try done.
    intros [= <-]. unfold resumed.
    pose proof (Forall_lookup_1 _ _ _ _ Hw Hl) as Ht. inversion Ht as [| | |? ? Hk|]; subst.
    destruct (advance_tidy K _ (Hk a) _ Hp) as [Ht' Hp'].
    destruct (advance _ _) as [p' t']. simpl in *.
    split; [done|]. split; [by apply Forall_insert|done].
  - destruct (window s !! i) as [[| | | | |filePath k]|] eqn:Hl; try done.
    intros [= <-]. unfold resumed.
    pose proof (Forall_lookup_1 _ _ _ _ Hw Hl) as Ht. inversion Ht as [| | | |? ? Hk]; subst.
    destruct (advance_tidy K _ (Hk a) _ Hp) as [Ht' Hp'].
    destruct (advance _ _) as [p' t']. simpl in *.
    split; [done|]. split; [by apply Forall_insert|done].
  - destruct (negb _); [done|].
    destruct (existsb _ _).
    { intros [= <-]. split; [done|]. split; [done|]. by apply Forall_nil. }
    destruct (forallb _ _); [|done].
    destruct (pending s) as [|file rest] eqn:Hpe.
    { intros [= <-]. split; [done|]. split; [done|]. by apply Forall_nil. }
    rewrite <- Hpe in Hpend |- *.
    destruct (startBatch_tidy K r2Client (take batchSize (pending s))
                (Forall_take _ _ _ Hpend) _ Hp) as [Hts Hp'].
    destruct (startBatch _ _ _) as [[p' ts] cs]. simpl in *.
    intros [= <-]. split; [done|]. split; [done|]. by apply Forall_drop.
Qed.

(** X7.  In every state that a run of [migrateFiles] can reach, every key
    of [errors] is the path of one of the submitted files, and [errors] has
    at most as many entries as [failed] counts. *)
Theorem migrateFiles_error_entries (r2Client : bool)
    (current : MigrationProgress) (files : list Enumerator.MigrationFile)
    (s0 : state) (evs : list event) (s : state) :
  migrateFiles r2Client current files = Return s0 ->
  run r2Client evs s0 = Some s ->
  (forall key, is_Some (errors (progress s) !! key) ->
               In key (Enumerator.path <$> files)) /\
  size (errors (progress s)) <= failed (progress s).
Proof.
  intros Hstart Hrun.
  assert (entries_kept (submitted files) s0) as H0.
  { unfold migrateFiles in Hstart.
    destruct (inProgress current); [done|]. destruct (negb r2Client); [done|].
    injection Hstart as <-. split; [|split]; simpl.
    - split; simpl; [|by rewrite map_size_empty].
      intros key [v Hv]. by rewrite lookup_empty in Hv.
    - by apply Forall_nil.
    - apply Forall_forall. intros f Hf. unfold submitted.
      by apply list_elem_of_In, list_elem_of_fmap_2. }
  assert (entries_kept (submitted files) s) as (Hb & _ & _).
  { clear Hstart. revert s0 H0 Hrun.
    induction evs as [|ev evs IH]; intros s0 H0; simpl.
    - by intros [= <-].
    - destruct (step r2Client ev s0) as [s1|] eqn:Hstep; [|done].
      apply IH. exact (step_entries_kept _ _ _ _ _ H0 Hstep). }
  exact Hb.
Qed.

Lemma migrateFiles_error_entries_witness :
  (forall key, is_Some (errors (progress RunSamples.seven_final) !! key) ->
               In key (Enumerator.path <$> ServiceSamples.seven_files)) /\
  size (errors (progress RunSamples.seven_final))
    <= failed (progress RunSamples.seven_final).
Proof.
  apply (migrateFiles_error_entries true ServiceSamples.idle
           ServiceSamples.seven_files RunSamples.seven_start
           RunSamples.seven_events RunSamples.seven_final).
  - reflexivity.
  - vm_compute. reflexivity.
Defined.


End ErrorEntries.

(** ** Content types, further *)

Section ContentTypesByExtension.
Import ContentType.

Lemma last_piece (pre e : string) :
  includes e "." = false ->
  last (split "." (pre +:+ "." +:+ e)) = Some e.
Proof.
  intros He.
  change (pre +:+ "." +:+ e) with (pre +:+ String "." e).
  by rewrite split_app_sep, (split_one_piece _ _ He), last_snoc.
Qed.

Lemma contentTypes_values (key mime : string) :
  own contentTypes key = Some mime -> key <> "" /\ mime <> "".
Proof.
  unfold contentTypes. cbn [own].
  repeat (match goal with
          | |- context [String.eqb ?k key] =>
              destruct (String.eqb_spec k key) as [<-|_]; cbv beta iota;
              [by intros [= <-]|]
          end).
  done.
Qed.

Lemma serviceContentTypes_values (key mime : string) :
  own serviceContentTypes key = Some mime -> key <> "" /\ mime <> "".
Proof.
  unfold serviceContentTypes. cbn [own].
  repeat (match goal with
          | |- context [String.eqb ?k key] =>
              destruct (String.eqb_spec k key) as [<-|_]; cbv beta iota;
              [by intros [= <-]|]
          end).
  done.
Qed.

Lemma lookupContentType_hit (table : list (string * string))
    (pre e mime : string) :
  (forall key m, own table key = Some m -> key <> "" /\ m <> "") ->
  includes e "." = false ->
  own table (toLowerCase e) = Some mime ->
  lookupContentType table (pre +:+ "." +:+ e) = VString mime.
Proof.
  intros Hvalues He Hown. unfold lookupContentType.
  rewrite (last_piece pre e He). simpl. unfold get. rewrite Hown. simpl.
  destruct (Hvalues _ _ Hown) as [Hk Hm].
  destruct (String.eqb_spec (toLowerCase e) ""); [done|].
  destruct (String.eqb_spec mime ""); [done|]. done.
Qed.

(** X11.  The content type goes by the extension alone, whatever its
    letter case: two paths whose parts after the last dot are equal up to
    case get the same answer from [getContentType], and a path whose
    extension is, in lower case, a key of the table gets the type of that
    row, whatever comes before the last dot. *)
Theorem getContentType_by_extension (pre pre' e e' : string) :
  includes e "." = false ->
  includes e' "." = false ->
  toLowerCase e = toLowerCase e' ->
  getContentType (pre +:+ "." +:+ e) = getContentType (pre' +:+ "." +:+ e') /\
  forall mime,
    own contentTypes (toLowerCase e) = Some mime ->
    getContentType (pre +:+ "." +:+ e) = VString mime.
Proof.
  intros He He' Hlow. split.
  - unfold getContentType, lookupContentType.
    rewrite (last_piece pre e He), (last_piece pre' e' He'). simpl.
    by rewrite Hlow.
  - intros mime. apply lookupContentType_hit; [apply contentTypes_values|done].
Qed.

Lemma getContentType_by_extension_witness :
  getContentType ("photos/2024.summer/IMG_1" +:+ "." +:+ "JPeG")
    = getContentType ("b" +:+ "." +:+ "jpeg") /\
  getContentType ("photos/2024.summer/IMG_1" +:+ "." +:+ "JPeG")
    = VString "image/jpeg".
Proof.
  destruct (getContentType_by_extension "photos/2024.summer/IMG_1" "b"
              "JPeG" "jpeg" eq_refl eq_refl eq_refl) as [H1 H2].
  split; [exact H1|exact (H2 "image/jpeg" eq_refl)].
Defined.

Lemma own_tables_agree (key : string) :
  key <> "ppt" -> key <> "pptx" ->
  own serviceContentTypes key = own contentTypes key.
Proof.
  intros H1 H2. unfold serviceContentTypes, contentTypes. cbn [own].
  repeat (match goal with
          | |- context [String.eqb ?k key] =>
              destruct (String.eqb_spec k key) as [<-|_]; cbv beta iota; [done|]
          end).
  done.
Qed.

(** X12.  The two tables: [MigrationService.getContentType] answers as the
    [getContentType] of the route handler for every path whose extension is
    not, in lower case, [ppt] or [pptx]; for those two the service knows the
    PowerPoint types and the route handler falls back to
    [application/octet-stream]. *)
Theorem serviceGetContentType_agrees (path e : string) :
  last (split "." path) = Some e ->
  (toLowerCase e <> "ppt" -> toLowerCase e <> "pptx" ->
   serviceGetContentType path = getContentType path) /\
  (toLowerCase e = "ppt" ->
   serviceGetContentType path = VString "application/vnd.ms-powerpoint" /\
   getContentType path = VString "application/octet-stream") /\
  (toLowerCase e = "pptx" ->
   serviceGetContentType path =
     VString "application/vnd.openxmlformats-officedocument.presentationml.presentation" /\
   getContentType path = VString "application/octet-stream").
Proof.
  intros Hlast.
  unfold serviceGetContentType, getContentType, lookupContentType.
  rewrite Hlast. simpl.
  split; [|split].
  - intros H1 H2. unfold get. by rewrite (own_tables_agree _ H1 H2).
  - by intros ->.
  - by intros ->.
Qed.

Lemma serviceGetContentType_agrees_witness :
  serviceGetContentType "slides/deck.PPT" = VString "application/vnd.ms-powerpoint" /\
  getContentType "slides/deck.PPT" = VString "application/octet-stream" /\
  serviceGetContentType "a/b.svg" = getContentType "a/b.svg".
Proof.
  split; [|split].
  - exact (proj1 (proj1 (proj2 (serviceGetContentType_agrees
                                  "slides/deck.PPT" "PPT" eq_refl)) eq_refl)).
  - exact (proj2 (proj1 (proj2 (serviceGetContentType_agrees
                                  "slides/deck.PPT" "PPT" eq_refl)) eq_refl)).
  - apply (proj1 (serviceGetContentType_agrees "a/b.svg" "svg" eq_refl));
      discriminate.
Defined.

End ContentTypesByExtension.

(** ** Transfer, further *)

Section TransferOutcomes.
Import ContentType Transfer.

Variable download : string -> string -> download_answer.
Variable put : string -> string -> put_answer.
Variable is_url : string -> bool.
Variable zod_message : list string -> string.

Lemma downloadAndUpload_success (sb : SupabaseConfig) (cf : CloudflareConfig)
    (key : string) (destination : bucket_contents) (status : nat)
    (url message : string) (destination' : bucket_contents) (calls : list call) :
  downloadAndUpload download put sb cf key destination
    = (status, Success url message, destination', calls) ->
  exists blob,
    download (sourceBucketName sb) key = DownloadData blob /\
    put (bucketName cf) key = PutResolves /\
    status = 200 /\
    url = fileUrl cf key /\
    destination' = <[key := (blob, getContentType key)]> destination /\
    calls = [ Download (sourceBucketName sb) key;
              PutObject (bucketName cf) key blob (getContentType key) ].
Proof.
  unfold downloadAndUpload.
  destruct (download _ key) as [m| |blob|e]; try done.
  destruct (put _ key); [|done].
  intros [= <- <- <- <- <-]. by exists blob.
Qed.

(** X8.  A success of the route handler means what it says: the request
    carried both configurations and a path, the object was downloaded from
    the source under the normalised path and put under that same key, the
    destination afterwards holds exactly that body with the content type of
    the key and is otherwise as before, and the URL in the answer is the
    public URL of that key. *)
Theorem POST_success_stores_object (request : option body)
    (destination : bucket_contents) (status : nat) (url message : string)
    (destination' : bucket_contents) (calls : list call) :
  POST download put is_url zod_message request destination
    = (status, Success url message, destination', calls) ->
  exists sb cf path blob,
    request = Some {| supabaseConfig := Some sb; cloudflareConfig := Some cf;
                      filePath := path |} /\
    download (sourceBucketName sb) (normalizePath path) = DownloadData blob /\
    status = 200 /\
    url = fileUrl cf (normalizePath path) /\
    destination' !! normalizePath path
      = Some (blob, getContentType (normalizePath path)) /\
    (forall key, key <> normalizePath path ->
                 destination' !! key = destination !! key) /\
    calls = [ Download (sourceBucketName sb) (normalizePath path);
              PutObject (bucketName cf) (normalizePath path) blob
                        (getContentType (normalizePath path)) ].
Proof.
  unfold POST.
  destruct request as [[[sb|] [cf|] path]|]; try done. simpl.
  destruct (String.eqb path ""); [done|].
  destruct (SupabaseConfigSchema is_url sb); [|done].
  destruct (CloudflareConfigSchema cf); [|done].
  intros H.
  destruct (downloadAndUpload_success _ _ _ _ _ _ _ _ _ H)
    as (blob & Hd & _ & -> & -> & -> & ->).
  exists sb, cf, path, blob. repeat split; try done.
  - by rewrite lookup_insert_eq.
  - intros key Hne. by rewrite lookup_insert_ne.
Qed.


(** X10.  Configuration errors come before any input or output: when one
    of the two configurations does not pass its schema, both handlers
    answer with a failure and neither store is asked for anything. *)
Theorem invalid_configuration_sends_nothing (sb : SupabaseConfig)
    (cf : CloudflareConfig) (path : string) (destination : bucket_contents) :
  SupabaseConfigSchema is_url sb <> [] \/ CloudflareConfigSchema cf <> [] ->
  (exists status error,
      POST download put is_url zod_message
           (Some {| supabaseConfig := Some sb; cloudflareConfig := Some cf;
                    filePath := path |})
           destination
        = (status, Failure error, destination, []) /\
      (status = 400 \/ status = 500)) /\
  (exists error,
      migrateFileToR2 download put is_url zod_message sb cf path destination
        = (Failure error, destination, [])).
Proof.
  intros Hbad. split.
  - unfold POST. simpl. destruct (String.eqb path ""); [by eauto 6|].
    destruct (SupabaseConfigSchema is_url sb) eqn:Hs; [|by eauto 6].
    destruct (CloudflareConfigSchema cf) eqn:Hc; [|by eauto 6].
    by destruct Hbad.
  - unfold migrateFileToR2.
    destruct (SupabaseConfigSchema is_url sb) eqn:Hs; [|by eauto].
    destruct (CloudflareConfigSchema cf) eqn:Hc; [|by eauto].
    by destruct Hbad.
Qed.

End TransferOutcomes.

(** ** Table mode, further *)

Section TableRuns.
Import TableMigration TableBookkeeping.

Variable URL_pathname : string -> option string.
Variable migrate : string -> api_answer.
Variable update : string -> string -> string -> string -> update_answer.
Variable bucket : string.
Variable cloudflareConfig : Transfer.CloudflareConfig.
Variable table column : string.




(** X14.  A transfer is requested for a row only when its column holds a
    string that is not blank, and then for the key extracted from that
    string, which is not empty.  A row whose column is missing, is no
    string, or is blank is counted as failed with the message that names
    the column, and nothing is requested for it. *)
Theorem migrateRow_transfer_only_for_urls (row : TableRow)
    (p : Service.MigrationProgress) :
  (forall filePath,
      In (ApiMigrate filePath)
         (migrateRow URL_pathname migrate update bucket cloudflareConfig
                     table column row p).2 ->
      exists imageUrl,
        columns row !! column = Some (CellString imageUrl) /\
        blank imageUrl = false /\
        filePath = extractKey URL_pathname bucket imageUrl /\
        filePath <> "") /\
  ((forall imageUrl, columns row !! column = Some (CellString imageUrl) ->
                     blank imageUrl = true) ->
   migrateRow URL_pathname migrate update bucket cloudflareConfig
              table column row p
     = (failWith (id row) (no_url_message column) p, [])).
Proof.
  unfold migrateRow. split.
  - intros filePath.
    destruct (columns row !! column) as [[imageUrl|]|]; simpl; [|done|done].
    destruct (String.eqb imageUrl "" || blank imageUrl) eqn:Hb; simpl; [done|].
    apply orb_false_iff in Hb as [_ Hb].
    destruct (String.eqb_spec (extractKey URL_pathname bucket imageUrl) "")
      as [|Hne]; simpl; [done|].
    intros Hin. exists imageUrl.
    assert (filePath = extractKey URL_pathname bucket imageUrl) as ->; [|done].
    destruct (migrate _) as [e|[] error url]; simpl in Hin.
    + by destruct Hin as [[= <-]|[]].
    + destruct (update _ _ _ _); simpl in Hin;
        by destruct Hin as [[= <-]|[[=]|[]]].
    + by destruct Hin as [[= <-]|[]].
  - intros Hblank.
    destruct (columns row !! column) as [[imageUrl|]|]; [|done|done].
    rewrite (Hblank imageUrl eq_refl). by rewrite orb_true_r.
Qed.

End TableRuns.

Section TableRunsWitnesses.
Import TableMigration TableBookkeeping.

Lemma migrateRow_transfer_only_for_urls_witness :
  (exists imageUrl,
      columns TableSamples.photo_row !! "image" = Some (CellString imageUrl) /\
      blank imageUrl = false /\
      "images/a.png" = extractKey TableSamples.sample_URL_pathname "mybucket" imageUrl /\
      "images/a.png" <> "") /\
  migrateRow TableSamples.sample_URL_pathname TableSamples.transfer_ok
             TableSamples.update_ok "mybucket" TableSamples.destination_config
             "posts" "thumbnail" TableSamples.photo_row TableSamples.started
    = (failWith "42" (no_url_message "thumbnail") TableSamples.started, []).
Proof.
  split.
  - apply (proj1 (migrateRow_transfer_only_for_urls
                    TableSamples.sample_URL_pathname TableSamples.transfer_ok
                    TableSamples.update_ok "mybucket"
                    TableSamples.destination_config "posts" "image"
                    TableSamples.photo_row TableSamples.started)).
    left. reflexivity.
  - apply (proj2 (migrateRow_transfer_only_for_urls
                    TableSamples.sample_URL_pathname TableSamples.transfer_ok
                    TableSamples.update_ok "mybucket"
                    TableSamples.destination_config "posts" "thumbnail"
                    TableSamples.photo_row TableSamples.started)).
    intros imageUrl H. vm_compute in H. discriminate H.
Defined.

End TableRunsWitnesses.

(** ** File mode *)

Section FileModeRuns.
Import FileMode.

Variable download : string -> string -> Transfer.download_answer.
Variable put : string -> string -> Transfer.put_answer.
Variable is_url : string -> bool.
Variable zod_message : list string -> string.
Variable transport : string -> delivery.
Variable supabaseConfig : Transfer.SupabaseConfig.
Variable cloudflareConfig : Transfer.CloudflareConfig.

(** The server action only ever adds to the destination, under the
    normalised path, and asks for nothing else. *)
Lemma migrateFileToR2_effect (p : string) (d : Transfer.bucket_contents) :
  let r := Transfer.migrateFileToR2 download put is_url zod_message
             supabaseConfig cloudflareConfig p d in
  (forall key, is_Some (d !! key) -> is_Some (r.1.2 !! key)) /\
  (forall url message, r.1.1 = Transfer.Success url message ->
                       is_Some (r.1.2 !! normalizePath p)) /\
  Forall (fun c => request_key c = normalizePath p) r.2.
Proof.
  unfold Transfer.migrateFileToR2, Transfer.downloadAndUpload.
  destruct (Transfer.SupabaseConfigSchema is_url supabaseConfig); simpl;
    [|by split; [|split]].
  destruct (Transfer.CloudflareConfigSchema cloudflareConfig); simpl;
    [|by split; [|split]].
  destruct (download _ _) as [m| |blob|e]; simpl;
    try (split; [done|split; [done|by repeat constructor]]).
  destruct (put _ _); simpl.
  - split; [|split].
    + intros key Hk. apply lookup_insert_is_Some'. by right.
    + intros _ _ _. by rewrite lookup_insert_eq.
    + by repeat constructor.
  - split; [done|split; [done|by repeat constructor]].
Qed.

Lemma assign_keeps (key message key' : string) (es : gmap string string) :
  is_Some (es !! key') -> is_Some (assign key message es !! key').
Proof.
  unfold assign. destruct (String.eqb key "__proto__"); [done|].
  intros H. apply lookup_insert_is_Some'. by right.
Qed.

Lemma assign_own (key message : string) (es : gmap string string) :
  key <> "__proto__" -> is_Some (assign key message es !! key).
Proof.
  intros Hne. unfold assign.
  destruct (String.eqb_spec key "__proto__"); [done|].
  by rewrite lookup_insert_eq.
Qed.

(** One file of the loop. *)
Lemma migrateOne_effect (file : Enumerator.MigrationFile) (t : tally) :
  let t1 := migrateOne download put is_url zod_message transport
              supabaseConfig cloudflareConfig file t in
  completed t1 + failed t1 = S (completed t + failed t) /\
  (forall key, is_Some (destination t !! key) -> is_Some (destination t1 !! key)) /\
  (forall key, is_Some (errors t !! key) -> is_Some (errors t1 !! key)) /\
  (errors t1 !! Enumerator.path file = None ->
   Enumerator.path file <> "__proto__" ->
   is_Some (destination t1 !! normalizePath (Enumerator.path file))) /\
  exists made,
    requests t1 = (requests t ++ made)%list /\
    Forall (fun c => request_key c = normalizePath (Enumerator.path file)) made.
Proof.
  unfold migrateOne.
  pose proof (migrateFileToR2_effect (Enumerator.path file) (destination t))
    as (Hkeep & Hput & Hreq).
  destruct (transport (Enumerator.path file)) as [|e|e].
  - destruct (Transfer.migrateFileToR2 _ _ _ _ _ _ _ _) as [[result d'] made].
    simpl in *. destruct result as [url message|error]; simpl.
    + split; [lia|]. split; [done|]. split; [done|].
      split; [by intros _ _; eapply Hput|]. by exists made.
    + split; [lia|]. split; [done|]. split; [by intros key; apply assign_keeps|].
      split; [|by exists made].
      intros Hnone Hne. pose proof (assign_own _
        (if String.eqb error "" then "Unknown error" else error) (errors t) Hne) as [v Hv].
      by rewrite Hv in Hnone.
  - simpl. split; [lia|]. split; [done|]. split; [by intros key; apply assign_keeps|].
    split; [|by exists []; rewrite app_nil_r].
    intros Hnone Hne.
    pose proof (assign_own _ (Service.message_or "Network error" e) (errors t) Hne)
      as [v Hv].
    by rewrite Hv in Hnone.
  - destruct (Transfer.migrateFileToR2 _ _ _ _ _ _ _ _) as [[result d'] made].
    simpl in *. split; [lia|]. split; [done|].
    split; [by intros key; apply assign_keeps|].
    split; [|by exists made].
    intros Hnone Hne.
    pose proof (assign_own _ (Service.message_or "Network error" e) (errors t) Hne)
      as [v Hv].
    by rewrite Hv in Hnone.
Qed.

Lemma migrateFilesWithTracking_effect (files : list Enumerator.MigrationFile) :
  forall t,
    let t' := migrateFilesWithTracking download put is_url zod_message transport
                supabaseConfig cloudflareConfig files t in
    completed t' + failed t' = completed t + failed t + length files /\
    (forall key, is_Some (destination t !! key) -> is_Some (destination t' !! key)) /\
    (forall key, is_Some (errors t !! key) -> is_Some (errors t' !! key)) /\
    (forall f, In f files ->
               errors t' !! Enumerator.path f = None ->
               Enumerator.path f <> "__proto__" ->
               is_Some (destination t' !! normalizePath (Enumerator.path f))) /\
    exists made,
      requests t' = (requests t ++ made)%list /\
      Forall (fun c => exists f, In f files /\
                                 request_key c = normalizePath (Enumerator.path f))
             made.
Proof.
  induction files as [|file rest IH]; intros t; simpl.
  - split; [lia|]. split; [done|]. split; [done|]. split; [by intros f []|].
    exists []. by rewrite app_nil_r.
  - pose proof (migrateOne_effect file t) as (Hc1 & Hd1 & He1 & Hp1 & made1 & Hr1 & Hm1).
    specialize (IH (migrateOne download put is_url zod_message transport
                      supabaseConfig cloudflareConfig file t)).
    destruct IH as (Hc & Hd & He & Hp & made & Hr & Hm).
    split; [lia|]. split; [by intros key Hk; apply Hd, Hd1|].
    split; [by intros key Hk; apply He, He1|]. split.
    + intros f [<-|Hin] Hnone Hne.
      * apply Hd, Hp1; [|done].
        destruct (errors _ !! Enumerator.path file) eqn:Hl; [|done].
        assert (is_Some (Some s)) as Hs by done.
        rewrite <- Hl in Hs. apply He in Hs as [v Hv]. by rewrite Hv in Hnone.
      * by apply Hp.
    + exists (made1 ++ made)%list. split.
      * by rewrite Hr, Hr1, app_assoc.
      * apply Forall_app; split.
        -- eapply Forall_impl; [exact Hm1|]. intros c Hcq. exists file. by split; [left|].
        -- eapply Forall_impl; [exact Hm|]. intros c (f & Hf & Hcq). exists f.
           by split; [right|].
Qed.


(** X16.  Only selected files are transferred: every request that a run of
    the file mode makes, download or upload, is for the normalised path of
    a selected file; and the list of files afterwards has the same paths
    and sizes, with a file selected only if it was selected before and its
    entry in [errors] reads as true. *)
Theorem startMigration_files_selected_only
    (files : list Enumerator.MigrationFile) (migratedFiles : gset string)
    (destination0 : Transfer.bucket_contents) (a : after) :
  startMigration download put is_url zod_message transport supabaseConfig
                 cloudflareConfig files migratedFiles destination0 = Some a ->
  Forall (fun c => exists f, In f files /\ is_selected f = true /\
                             request_key c = normalizePath (Enumerator.path f))
         (allRequests a) /\
  Forall2 (fun f f' =>
             Enumerator.path f' = Enumerator.path f /\
             Enumerator.size f' = Enumerator.size f /\
             is_selected f' =
               is_selected f &&
               reads_truthy (Service.errors (finalProgress a)) (Enumerator.path f))
          files (updatedFiles a).
Proof.
  unfold startMigration.
  destruct (List.filter is_selected files) as [|f0 fs] eqn:Hsel; [done|].
  rewrite <- Hsel. intros [= <-]. simpl. split.
  - pose proof (migrateFilesWithTracking_effect (List.filter is_selected files)
                  {| completed := 0; failed := 0; errors := ∅;
                     destination := destination0; requests := [] |})
      as (_ & _ & _ & _ & made & Hr & Hm).
    simpl in Hr. rewrite Hr.
    eapply Forall_impl; [exact Hm|].
    intros c (f & Hf & Hc). apply filter_In in Hf as [Hf Hs]. by exists f.
  - clear Hsel.
    generalize (errors (migrateFilesWithTracking download put is_url zod_message
                          transport supabaseConfig cloudflareConfig
                          (List.filter is_selected files)
                          {| completed := 0; failed := 0; errors := ∅;
                             destination := destination0; requests := [] |})).
    intros es. induction files as [|f rest IH]; simpl; [by constructor|].
    constructor; [|exact IH].
    destruct f as [p0 sz lm [[]|]]; unfold is_selected; simpl;
      repeat split; by destruct (reads_truthy es p0).
Qed.

End FileModeRuns.

Section FileModeWitnesses.
Import FileMode.

Lemma three_files_run :
  startMigration TransferSamples.one_object TransferSamples.put_accepts
                 TransferSamples.any_url TransferSamples.issues_joined
                 FileModeSamples.always_delivered TransferSamples.source_config
                 TableSamples.destination_config FileModeSamples.three_files ∅ ∅
  = Some FileModeSamples.three_files_after.
Proof. vm_compute. reflexivity. Qed.


Lemma startMigration_files_selected_only_witness :
  Forall (fun c => exists f, In f FileModeSamples.three_files /\
                             is_selected f = true /\
                             request_key c = normalizePath (Enumerator.path f))
         (allRequests FileModeSamples.three_files_after).
Proof.
  assert (startMigration TransferSamples.one_object TransferSamples.put_accepts
            TransferSamples.any_url TransferSamples.issues_joined
            FileModeSamples.always_delivered TransferSamples.source_config
            TableSamples.destination_config FileModeSamples.three_files ∅ ∅
          = Some FileModeSamples.three_files_after) as Hrun
    by (vm_compute; reflexivity).
  exact (proj1 (startMigration_files_selected_only _ _ _ _ _ _ _ _ _ _ _ Hrun)).
Defined.

End FileModeWitnesses.

(** ** Loading and selecting *)

Section Loading.
Import Enumerator FileMode.

Lemma filter_setSelected_false (files : list MigrationFile) :
  List.filter is_selected (List.map (setSelected (Some false)) files) = [].
Proof. induction files as [|f rest IH]; simpl; [done|exact IH]. Qed.

(** X17.  What [loadFiles] shows.  A listing of the start folder that fails
    with a message containing [not found] or [does not exist] is shown as
    the one message that the bucket was not found or is inaccessible (the
    error of [listFiles] is rewritten a second time).  And the files of a
    loaded inventory all pass the skip filter and are all deselected, so
    that a migration started right after loading does nothing. *)
Theorem loadFiles_outcomes (bucketName : string)
    (list_ : string -> list_answer) (fuel : nat) (prefix : string) :
  (bucketName <> "" ->
   shouldSkipPath (normalizePath prefix) = false ->
   forall error_name message,
     list_ (normalizePath prefix) = ListError error_name message ->
     includes message "not found" || includes message "does not exist" = true ->
     loadFiles bucketName list_ (S fuel) prefix =
       Some (inr ("Bucket " +:+ quote +:+ bucketName +:+ quote +:+
                  " not found or inaccessible. Please verify your bucket name and permissions."))) /\
  (forall files,
      loadFiles bucketName list_ fuel prefix = Some (inl files) ->
      Forall (fun f => shouldSkipPath (path f) = false /\ selected f = Some false)
             files /\
      List.filter is_selected files = []).
Proof.
  split.
  - intros Hb Hskip error_name message Hl Hm.
    unfold loadFiles. cbn [listFiles].
    destruct (String.eqb_spec bucketName ""); [done|].
    rewrite Hskip, Hl, Hm. cbn [snd Error].
    assert (includes ("Bucket " +:+ quote +:+ bucketName +:+ quote +:+
                      " does not exist or is not accessible") "does not exist"
            = true) as ->; [|by rewrite orb_true_r].
    change ("Bucket " +:+ quote +:+ bucketName +:+ quote +:+
            " does not exist or is not accessible")
      with ("Bucket " +:+ quote +:+ bucketName +:+ quote +:+
            " " +:+ "does not exist" +:+ " or is not accessible").
    rewrite <- !string_app_assoc. rewrite string_app_assoc.
    apply includes_app.
  - intros files. unfold loadFiles.
    destruct (listFiles bucketName list_ fuel prefix) as [cs [[listed|e]|]] eqn:Hlist;
      simpl; [|by repeat case_match|done].
    intros [= <-]. split; [|apply filter_setSelected_false].
    pose proof (listFiles_kept _ _ _ _ _ _ Hlist) as Hkept. clear Hlist.
    induction Hkept as [|f rest [Hf _] _ IH]; simpl; [by constructor|].
    by constructor.
Qed.

Lemma loadFiles_outcomes_witness :
  loadFiles "media" FileModeSamples.missing_bucket 1 "/" =
    Some (inr ("Bucket " +:+ quote +:+ "media" +:+ quote +:+
               " not found or inaccessible. Please verify your bucket name and permissions.")) /\
  List.filter is_selected
    [ {| path := "readme.txt"; size := 12; lastModified := None;
         selected := Some false |};
      {| path := "images/a.png"; size := 20; lastModified := Some "2024-01-01";
         selected := Some false |} ] = [].
Proof.
  split.
  - apply (proj1 (loadFiles_outcomes "media" FileModeSamples.missing_bucket 0 "/")
             ltac:(discriminate) eq_refl "StorageApiError" "Bucket not found");
      reflexivity.
  - apply (proj2 (loadFiles_outcomes "media" Samples.sample_list 3 "")).
    reflexivity.
Defined.


End Loading.

Section TransferOutcomesWitnesses.
Import ContentType Transfer.

Lemma POST_success_stores_object_witness :
  exists sb cf path blob,
    Some {| supabaseConfig := Some TransferSamples.source_config;
            cloudflareConfig := Some TableSamples.destination_config;
            filePath := "/a.jpg" |}
      = Some {| supabaseConfig := Some sb; cloudflareConfig := Some cf;
                filePath := path |} /\
    TransferSamples.one_object (sourceBucketName sb) (normalizePath path)
      = DownloadData blob.
Proof.
  assert (POST TransferSamples.one_object TransferSamples.put_accepts
               TransferSamples.any_url TransferSamples.issues_joined
               (Some {| supabaseConfig := Some TransferSamples.source_config;
                        cloudflareConfig := Some TableSamples.destination_config;
                        filePath := "/a.jpg" |})
               ∅
          = ( 200,
              Success "https://target.acc.r2.cloudflarestorage.com/a.jpg"
                      "Successfully migrated a.jpg",
              {[ "a.jpg" := ("0123456789", VString "image/jpeg") ]},
              [ Download "mybucket" "a.jpg";
                PutObject "target" "a.jpg" "0123456789" (VString "image/jpeg") ] ))
    as Hrun by (vm_compute; reflexivity).
  destruct (POST_success_stores_object _ _ _ _ _ _ _ _ _ _ _ Hrun)
    as (sb & cf & path & blob & Hreq & Hd & _).
  by exists sb, cf, path, blob.
Defined.


Lemma invalid_configuration_sends_nothing_witness :
  exists error,
    migrateFileToR2 TransferSamples.one_object TransferSamples.put_accepts
                    TransferSamples.any_url TransferSamples.issues_joined
                    {| supabaseUrl := "https://proj.supabase.co";
                       supabaseKey := ""; sourceBucketName := "mybucket" |}
                    TableSamples.destination_config "a.jpg" ∅
      = (Failure error, ∅, []).
Proof.
  apply (invalid_configuration_sends_nothing
           TransferSamples.one_object TransferSamples.put_accepts
           TransferSamples.any_url TransferSamples.issues_joined
           {| supabaseUrl := "https://proj.supabase.co";
              supabaseKey := ""; sourceBucketName := "mybucket" |}
           TableSamples.destination_config "a.jpg" ∅).
  left. discriminate.
Defined.

End TransferOutcomesWitnesses.

(** ** The list of tables *)

Section TablesRouteFacts.
Import TablesRoute.

Lemma defaultTables_shape (bucket : string) :
  NoDup (defaultTables bucket) /\
  In (Some "images") (defaultTables bucket) /\
  In (Some "profiles") (defaultTables bucket) /\
  In (Some "users") (defaultTables bucket) /\
  (bucket <> "" -> In (Some bucket) (defaultTables bucket)).
Proof.
  assert (NoDup [ Some "images"; Some "profiles"; Some "users" ]) as Hthree.
  { apply (bool_decide_unpack _). by vm_compute. }
  unfold defaultTables. cbn [existsb].
  destruct (String.eqb_spec bucket "") as [->|H0]; cbn [negb andb orb].
  { split; [exact Hthree|]. cbn [In]. tauto. }
  destruct (String.eqb_spec bucket "images") as [->|H1]; cbn [negb andb orb].
  { split; [exact Hthree|]. cbn [In]. tauto. }
  destruct (String.eqb_spec bucket "profiles") as [->|H2]; cbn [negb andb orb].
  { split; [exact Hthree|]. cbn [In]. tauto. }
  destruct (String.eqb_spec bucket "users") as [->|H3]; cbn [negb andb orb].
  { split; [exact Hthree|]. cbn [In]. tauto. }
  split; [|cbn [In]; tauto].
  apply NoDup_cons. split; [|exact Hthree].
  intros [Hi|[Hp|[Hu|Hn]]]%list_elem_of_In; cbn in *; congruence || done.
Qed.

(** X19.  The route of the table list never answers a readable request
    with an empty list.  An error comes with status 400 or 500 and before
    any query.  A list taken from the database has at least one entry.  The
    default list is given only after all three queries came back without
    rows; it has no entry twice, holds [images], [profiles] and [users], and
    holds the bucket name of the request when there is one. *)
Theorem tables_route_answers (createClient : option thrown)
    (rpc information_schema sqlj_tables : query_answer) (c : credentials) :
  match POST createClient rpc information_schema sqlj_tables (Return c) with
  | (Tables tables, queries) => tables <> [] /\ queries <> []
  | (DefaultTables tables debug, queries) =>
      queries = [ Rpc; InformationSchema; SqlTables ] /\
      (forall a, In a [ rpc; information_schema; sqlj_tables ] ->
                 forall row rows, a <> QueryData (row :: rows)) /\
      NoDup tables /\
      In (Some "images") tables /\ In (Some "profiles") tables /\
      In (Some "users") tables /\
      (bucketName c <> "" -> In (Some (bucketName c)) tables)
  | (RouteError status error, queries) =>
      queries = [] /\ (status = 400 \/ status = 500)
  end.
Proof.
  unfold POST.
  destruct (_ || _); [by split; [|left]|].
  destruct createClient; [by split; [|right]|].
  assert (forall a b d, In a [ rpc; information_schema; sqlj_tables ] ->
            rpc <> QueryData (b :: d) ->
            information_schema <> QueryData (b :: d) ->
            sqlj_tables <> QueryData (b :: d) ->
            a <> QueryData (b :: d)) as Hnone.
  { by intros a b d [<-|[<-|[<-|[]]]]. }
  destruct rpc as [e1|m1|[|r1 d1]]; [| | |by cbn];
    (destruct information_schema as [e2|m2|[|r2 d2]]; [| | |by cbn]);
    (destruct sqlj_tables as [e3|m3|[|r3 d3]]; [| | |by cbn]);
    cbv beta iota zeta;
    (split; [reflexivity|]); (split; [|apply defaultTables_shape]);
    intros a Ha row rows; by apply Hnone.
Qed.

End TablesRouteFacts.

Section TablesRouteWitness.
Import TablesRoute.

(** X19 on a project whose three catalogue queries all fail: the route
    answers with the default list, which begins with the bucket name. *)
Lemma tables_route_answers_witness :
  In (Some "avatars")
     (defaultTables "avatars") /\
  QueryError "function get_tables() does not exist"
    <> QueryData [ {| table_name := Some "users"; tablename := None; name := None |} ].
Proof.
  pose proof (tables_route_answers None
                (QueryError "function get_tables() does not exist")
                (QueryError "relation does not exist")
                (QueryThrows OtherValue)
                {| supabaseUrl := "https://proj.supabase.co";
                   supabaseKey := "service-key";
                   bucketName := "avatars" |}) as H.
  cbv beta iota delta [POST] in H.
  change (String.eqb "https://proj.supabase.co" "" || String.eqb "service-key" "")
    with false in H.
  cbv beta iota zeta in H.
  destruct H as (_ & Hrows & _ & _ & _ & _ & Hbucket).
  split.
  - apply Hbucket. discriminate.
  - apply Hrows. left. reflexivity.
Defined.

End TablesRouteWitness.

(** ** Checking the destination *)

Section ConnectionFacts.
Import Connection.

Variable headBucket : string -> string -> option thrown.

(** X20.  The server action [connectToR2] and the route
    [/api/validate-r2] agree on every readable request: same answer, same
    request.  With a field missing they refuse without asking the
    destination; they report a connection only when the four fields are
    there and the HEAD request for the bucket succeeded, and then they name
    the bucket. *)
Theorem connectToR2_agrees_with_route (c : r2_credentials) :
  (POST headBucket (Some c)).1.2 = (connectToR2 headBucket c).1 /\
  (POST headBucket (Some c)).2 = (connectToR2 headBucket c).2 /\
  (accountId c = "" \/ accessKeyId c = "" \/ secretAccessKey c = "" \/
   bucketName c = "" ->
   connectToR2 headBucket c = (Refused "Missing required credentials", [])) /\
  (forall message,
      (connectToR2 headBucket c).1 = Connected message ->
      accountId c <> "" /\ accessKeyId c <> "" /\ secretAccessKey c <> "" /\
      bucketName c <> "" /\
      headBucket (accountId c) (bucketName c) = None /\
      message = "Successfully connected to bucket: " +:+ bucketName c /\
      (connectToR2 headBucket c).2 = [HeadBucket (accountId c) (bucketName c)]).
Proof.
  unfold POST, connectToR2.
  destruct (String.eqb_spec (accountId c) "") as [Ha|Ha]; simpl.
  { repeat split; try done. }
  destruct (String.eqb_spec (accessKeyId c) "") as [Hk|Hk]; simpl.
  { repeat split; try done. }
  destruct (String.eqb_spec (secretAccessKey c) "") as [Hs|Hs]; simpl.
  { repeat split; try done. }
  destruct (String.eqb_spec (bucketName c) "") as [Hb|Hb]; simpl.
  { repeat split; try done. }
  destruct (headBucket (accountId c) (bucketName c)) as [e|]; simpl.
  - repeat split; try done. by intros [|[|[|]]].
  - split; [done|]. split; [done|]. split; [by intros [|[|[|]]]|].
    intros message [= <-]. by repeat split.
Qed.

End ConnectionFacts.

Section ConnectionWitness.
Import Connection.

Lemma connectToR2_agrees_with_route_witness :
  connectToR2 (fun _ _ => None)
              {| accountId := "acc"; accessKeyId := ""; secretAccessKey := "s";
                 bucketName := "target" |}
    = (Refused "Missing required credentials", []) /\
  "target" <> "".
Proof.
  split.
  - apply (proj1 (proj2 (proj2 (connectToR2_agrees_with_route (fun _ _ => None)
             {| accountId := "acc"; accessKeyId := ""; secretAccessKey := "s";
                bucketName := "target" |})))).
    right. left. reflexivity.
  - apply (proj2 (proj2 (proj2 (connectToR2_agrees_with_route (fun _ _ => None)
             {| accountId := "acc"; accessKeyId := "k"; secretAccessKey := "s";
                bucketName := "target" |})))
             "Successfully connected to bucket: target" eq_refl).
Defined.

End ConnectionWitness.

(** ** Clients *)

Section ClientFacts.
Import Clients.

Variable is_url : string -> bool.
Variable zod_message : list string -> string.


(** X22.  The constructor of [MigrationService] builds a destination
    client exactly when the destination configuration passes its schema, so
    that its call of [initCloudflareR2Client] cannot throw; the new service
    is idle.  A service built without a complete destination, as
    [FileMigration] builds it while the destination is not connected,
    refuses [migrateFiles] and the existence check with the error of the
    missing client, and sends nothing. *)
Theorem newMigrationService_destination (supabaseConfig : Transfer.SupabaseConfig)
    (cloudflareConfig : Transfer.CloudflareConfig) (cache : gmap string client) :
  (hasR2Client cloudflareConfig = true <->
   Transfer.CloudflareConfigSchema cloudflareConfig = []) /\
  hasR2Client no_cloudflare = false /\
  (forall svc cache',
      newMigrationService is_url zod_message supabaseConfig cloudflareConfig cache
        = (Return svc, cache') ->
      r2Client svc = hasR2Client cloudflareConfig /\
      Service.inProgress (progress svc) = false /\
      (r2Client svc = false ->
       forall files w path p,
         Service.migrateFiles (r2Client svc) (progress svc) files
           = Throw (Error Service.not_initialized) /\
         Service.exec w (Service.fileExistsInR2 (r2Client svc) path) p
           = (Throw (Error Service.not_initialized), p, []))) /\
  (forall e cache',
      newMigrationService is_url zod_message supabaseConfig cloudflareConfig cache
        = (Throw e, cache') ->
      Transfer.SupabaseConfigSchema is_url supabaseConfig <> []).
Proof.
  assert (hasR2Client cloudflareConfig = true <->
          Transfer.CloudflareConfigSchema cloudflareConfig = []) as Hiff.
  { unfold hasR2Client, Transfer.CloudflareConfigSchema, Transfer.required.
    destruct (String.eqb (Transfer.accountId cloudflareConfig) "");
      destruct (String.eqb (Transfer.accessKeyId cloudflareConfig) "");
      destruct (String.eqb (Transfer.secretAccessKey cloudflareConfig) "");
      destruct (String.eqb (Transfer.bucketName cloudflareConfig) "");
      simpl; split; done. }
  split; [exact Hiff|]. split; [reflexivity|].
  unfold newMigrationService, initSupabaseClient.
  destruct (Transfer.SupabaseConfigSchema is_url supabaseConfig) eqn:Hs.
  - assert (forall (c : client) (k : gmap string client) svc cache',
              (if hasR2Client cloudflareConfig
               then match Transfer.CloudflareConfigSchema cloudflareConfig with
                    | [] => (Return {| supabase := c; r2Client := true;
                                       progress := {| Service.total := 0;
                                                      Service.completed := 0;
                                                      Service.failed := 0;
                                                      Service.inProgress := false;
                                                      Service.errors := ∅ |} |}, k)
                    | (_ :: _) as issues =>
                        (Throw (ErrorObject "ZodError" (zod_message issues)), k)
                    end
               else (Return {| supabase := c; r2Client := false;
                               progress := {| Service.total := 0;
                                              Service.completed := 0;
                                              Service.failed := 0;
                                              Service.inProgress := false;
                                              Service.errors := ∅ |} |}, k))
              = (Return svc, cache') ->
              r2Client svc = hasR2Client cloudflareConfig /\
              Service.inProgress (progress svc) = false) as Hbuilt.
    { intros c k svc cache'.
      destruct (hasR2Client cloudflareConfig) eqn:Hh.
      - rewrite (proj1 Hiff eq_refl). by intros [= <- _].
      - by intros [= <- _]. }
    split.
    + intros svc cache' Hnew.
      assert (r2Client svc = hasR2Client cloudflareConfig /\
              Service.inProgress (progress svc) = false) as [Hr Hi].
      { destruct (cache !! cacheKey supabaseConfig); exact (Hbuilt _ _ _ _ Hnew). }
      split; [done|]. split; [done|].
      intros Hfalse files w path p. rewrite Hfalse. split.
      * unfold Service.migrateFiles. by rewrite Hi.
      * reflexivity.
    + intros e cache'.
      destruct (cache !! cacheKey supabaseConfig);
        destruct (hasR2Client cloudflareConfig) eqn:Hh;
        try rewrite (proj1 Hiff eq_refl); done.
  - split; [done|]. by intros e cache' _.
Qed.

End ClientFacts.

Section ClientWitnesses.
Import Clients.


Lemma newMigrationService_destination_witness :
  hasR2Client no_cloudflare = false /\
  Service.migrateFiles false ServiceSamples.idle ServiceSamples.two_files
    = Throw (Error Service.not_initialized).
Proof.
  split; [reflexivity|].
  assert (newMigrationService TransferSamples.any_url TransferSamples.issues_joined
            TransferSamples.source_config no_cloudflare ∅
          = (Return {| supabase := {| client_url := "https://proj.supabase.co";
                                      client_key := "service-key" |};
                       r2Client := false; progress := ServiceSamples.idle |},
             <[ "https://proj.supabase.co:service-key:mybucket" :=
                  {| client_url := "https://proj.supabase.co";
                     client_key := "service-key" |} ]> ∅)) as Hnew
    by (vm_compute; reflexivity).
  destruct (proj1 (proj2 (proj2 (newMigrationService_destination
              TransferSamples.any_url TransferSamples.issues_joined
              TransferSamples.source_config no_cloudflare ∅))) _ _ Hnew)
    as (_ & _ & H).
  exact (proj1 (H eq_refl ServiceSamples.two_files ServiceSamples.offline
                  "a.png" ServiceSamples.idle)).
Defined.

End ClientWitnesses.
